(** * sklego.preprocessing.monotonicspline

    A shallow embedding of [MonotonicSplineTransformer]
    (src/sklego/preprocessing/monotonicspline.py) and of the parts of numpy
    and scikit-learn it calls.

    - Array elements are an interface [Float64] (addition, comparison and
      the NaN / infinity tests), with two instances: IEEE-754 binary64 and
      exact extended rationals. Nothing is assumed about rounding except
      where a statement asks for [Float64Order].
    - Python objects live in a store indexed by locations, so that copying
      ([check_array(copy=True)]) and aliasing are visible.
    - Python calls are computations in the monad [Py]: they return a value
      or raise, and the store they leave behind is kept in both cases.
    - scikit-learn's [SplineTransformer] is a collaborator that is not part
      of this repository; it is an interface [SplineTransformerAPI], and
      every statement names the part of its contract that it relies on. *)

From Stdlib Require Import ZArith QArith Lqa String SpecFloat.
From stdpp Require Import gmap strings list.

Local Open Scope string_scope.
Local Open Scope list_scope.

(** ** Array elements *)

(** What the code needs of numpy's float64: [fadd] is the addition used by
    [cumsum], [fleb] the comparison [<=] (false as soon as one side is NaN),
    [isnan] and [isinf] are [numpy.isnan] and [numpy.isinf]. *)
Class Float64 : Type := {
  float64 : Type;
  fadd : float64 → float64 → float64;
  fleb : float64 → float64 → bool;
  fzero : float64;
  isnan : float64 → bool;
  isinf : float64 → bool;
}.

(** The two facts about ordering used for monotonicity: [<=] is transitive,
    and a sum of two non-negative numbers is at least the first one. A
    monotone rounding keeps both, and NaN is never non-negative since its
    comparisons are false. They are proved below for exact arithmetic; for
    [Binary64] they are not proved here. *)
Class Float64Order (F : Float64) : Prop := {
  fleb_trans : ∀ a b c : float64,
    fleb a b = true → fleb b c = true → fleb a c = true;
  fadd_nonneg_le : ∀ a b : float64,
    fleb fzero a = true → fleb fzero b = true → fleb a (fadd a b) = true;
}.

(** ** numpy arrays *)

Section Ndarray.
Context {F : Float64}.

(** A two-dimensional array, as the list of its rows (axis 0 is the outer
    list). *)
Definition ndarray : Type := list (list float64).

(** [a.shape] of a two-dimensional array with at least one row; [None]
    for a nested list that is not rectangular, or has no row. *)
Definition shape (a : ndarray) : option (nat * nat) :=
  match a with
  | [] => None
  | r :: rows =>
      if forallb (λ r', Nat.eqb (length r') (length r)) rows
      then Some (length a, length r)
      else None
  end.

(** [a[i, c]]. *)
Definition item (a : ndarray) (i c : nat) : option float64 :=
  r ← a !! i; r !! c.

(** [a[:, c]] as a list, when every row has a column [c]. *)
Definition column (c : nat) (a : ndarray) : option (list float64) :=
  mapM (λ r : list float64, r !! c) a.

Definition isfinite (x : float64) : bool := negb (isnan x) && negb (isinf x).

Definition all_finite (a : ndarray) : bool := forallb (forallb isfinite) a.

(** Elementwise sum of two rows. *)
Definition row_add (r1 r2 : list float64) : list float64 := zip_with fadd r1 r2.

(** The rows after the first one of a running sum whose last value is
    [acc]. *)
Fixpoint cumsum_from (acc : list float64) (rows : ndarray) : ndarray :=
  match rows with
  | [] => []
  | r :: rows' => row_add acc r :: cumsum_from (row_add acc r) rows'
  end.

(** One-dimensional running sum: [out[0] = l[0]],
    [out[k+1] = out[k] + l[k+1]]. *)
Fixpoint cumsum1_from (acc : float64) (l : list float64) : list float64 :=
  match l with
  | [] => []
  | x :: l' => fadd acc x :: cumsum1_from (fadd acc x) l'
  end.

Definition cumsum1 (l : list float64) : list float64 :=
  match l with
  | [] => []
  | x :: l' => x :: cumsum1_from x l'
  end.

(** [a.cumsum(axis)] on a two-dimensional array: [axis = 0] accumulates
    down the rows, the other axis along each row. *)
Definition cumsum (a : ndarray) (axis : nat) : ndarray :=
  match axis with
  | O => match a with
         | [] => []
         | r :: rows => r :: cumsum_from r rows
         end
  | S _ => map cumsum1 a
  end.

(** The sum of a non-empty list, added from left to right. *)
Definition sum_left (l : list float64) : option float64 :=
  match l with
  | [] => None
  | x :: l' => Some (foldl fadd x l')
  end.

Definition nonneg (x : float64) : Prop := fleb fzero x = true.
End Ndarray.

(** ** Exceptions and outcomes *)

Inductive exn : Type :=
| NotFittedError (name : string)
| ValueError (msg : string)
| TypeError (msg : string)
| AttributeError (attr : string).

Inductive outcome (A : Type) : Type :=
| Returns (a : A)
| Raises (e : exn).
Arguments Returns {A} a.
Arguments Raises {A} e.

Definition is_returns {A : Type} (r : outcome A) : bool :=
  match r with Returns _ => true | Raises _ => false end.

(** ** The spline collaborator *)

(** [sklearn.preprocessing.SplineTransformer]: the constructor called with
    [n_knots], [degree] and [knots], and the two methods the source calls.
    A method receives the object and the array argument and gives back its
    outcome together with the object and the argument as the call leaves
    them, so an implementation that assigns to either is expressible. *)
Class SplineTransformerAPI (F : Float64) : Type := {
  spline_obj : Type;
  SplineTransformer : Z → Z → string → spline_obj;
  spline_fit : spline_obj → ndarray → outcome unit * spline_obj * ndarray;
  spline_transform : spline_obj → ndarray → outcome ndarray * spline_obj * ndarray;
}.

(** ** Objects, store and the monad of Python computations *)

Abbreviation loc := positive.

Section Estimator.
Context {F : Float64} {ST : SplineTransformerAPI F}.

(** An instance of the class: the three constructor parameters and the
    attribute [spline_transformer_], absent until [fit] assigns it. *)
Record MonotonicSplineTransformer : Type := {
  n_knots : Z;
  degree : Z;
  knots : string;
  spline_transformer_ : option spline_obj;
}.

Inductive pyobj : Type :=
| PyArray (a : ndarray)
| PyEstimator (e : MonotonicSplineTransformer).

Definition Py (A : Type) : Type := gmap loc pyobj → outcome A * gmap loc pyobj.

#[export] Instance Py_ret : MRet Py := λ A a h, (Returns a, h).

#[export] Instance Py_bind : MBind Py := λ A B k m h,
  match m h with
  | (Returns a, h') => k a h'
  | (Raises e, h') => (Raises e, h')
  end.

Definition raise {A : Type} (e : exn) : Py A := λ h, (Raises e, h).

(** A new object, at a location the store does not use yet. *)
Definition alloc (o : pyobj) : Py loc :=
  λ h, let l := fresh (dom h) in (Returns l, <[l := o]> h).

Definition store (l : loc) (o : pyobj) : Py unit :=
  λ h, (Returns (), <[l := o]> h).

Definition load_array (l : loc) : Py ndarray :=
  λ h, match h !! l with
       | Some (PyArray a) => (Returns a, h)
       | _ => (Raises (ValueError "Expected 2D array"), h)
       end.

Definition load_estimator (l : loc) : Py MonotonicSplineTransformer :=
  λ h, match h !! l with
       | Some (PyEstimator e) => (Returns e, h)
       | _ => (Raises (TypeError "not an estimator instance"), h)
       end.

(** ** sklearn.utils *)

(** [check_array(X, copy=, force_all_finite=, dtype=FLOAT_DTYPES)] on a
    float array [X], with the defaults [ensure_2d=True],
    [ensure_min_samples=1] and [ensure_min_features=1]. With
    [force_all_finite=True] NaN and infinities are rejected, with [False]
    they are not looked at. With [copy=True] the result is a new array,
    otherwise it is [X] itself. *)
Definition check_array (X : loc) (copy force_all_finite : bool) : Py loc :=
  a ← load_array X;
  match shape a with
  | None => raise (ValueError "Found array with 0 sample(s) or not 2D")
  | Some (_, m) =>
      if force_all_finite && negb (all_finite a)
      then raise (ValueError "Input contains NaN or infinity")
      else if Nat.eqb m 0
      then raise (ValueError "Found array with 0 feature(s)")
      else if copy then alloc (PyArray a) else mret X
  end.

(** [hasattr(e, name)] for the data attributes of an instance. *)
Definition hasattr (e : MonotonicSplineTransformer) (name : string) : bool :=
  if String.eqb name "spline_transformer_"
  then bool_decide (is_Some (spline_transformer_ e))
  else String.eqb name "n_knots" || String.eqb name "degree"
       || String.eqb name "knots".

(** [check_is_fitted(estimator, attributes)]: raises [NotFittedError] when
    the attribute is absent. *)
Definition check_is_fitted (estimator : loc) (attributes : string) : Py unit :=
  e ← load_estimator estimator;
  if hasattr e attributes then mret ()
  else raise (NotFittedError "MonotonicSplineTransformer").

(** ** numpy method on a stored array *)

(** [a.cumsum(axis=axis)]: the result is a new array. *)
Definition ndarray_cumsum (a : loc) (axis : nat) : Py loc :=
  arr ← load_array a;
  alloc (PyArray (cumsum arr axis)).

(** ** MonotonicSplineTransformer *)

Definition default_n_knots : Z := 3.
Definition default_degree : Z := 3.
Definition default_knots : string := "uniform".

Definition __init__ (n_knots degree : Z) (knots : string)
  : MonotonicSplineTransformer :=
  {| n_knots := n_knots; degree := degree; knots := knots;
     spline_transformer_ := None |}.

(** [MonotonicSplineTransformer(n_knots, degree, knots)]. *)
Definition new_MonotonicSplineTransformer (n_knots degree : Z) (knots : string)
  : Py loc :=
  alloc (PyEstimator (__init__ n_knots degree knots)).

(** The instance [e] with its attribute [spline_transformer_] set to [s]. *)
Definition with_spline_transformer_ (e : MonotonicSplineTransformer)
  (s : spline_obj) : MonotonicSplineTransformer :=
  {| n_knots := n_knots e; degree := degree e; knots := knots e;
     spline_transformer_ := Some s |}.

(** [self.spline_transformer_ = s]. *)
Definition set_spline_transformer_ (self : loc) (s : spline_obj) : Py unit :=
  e ← load_estimator self;
  store self (PyEstimator (with_spline_transformer_ e s)).

(** The store after a method of [self.spline_transformer_] has run on [X],
    where the collaborator leaves its object as [s'] and its argument as
    [a']. *)
Definition after_call (h : gmap loc pyobj) (self X : loc)
  (e : MonotonicSplineTransformer) (s' : spline_obj) (a' : ndarray)
  : gmap loc pyobj :=
  <[self := PyEstimator (with_spline_transformer_ e s')]> (<[X := PyArray a']> h).

(** [self.spline_transformer_.fit(X)]: the collaborator's object and its
    argument are written back as the call leaves them, also when it
    raises. *)
Definition spline_transformer_fit (self X : loc) : Py unit :=
  e ← load_estimator self;
  a ← load_array X;
  match spline_transformer_ e with
  | None => raise (AttributeError "spline_transformer_")
  | Some s =>
      let '(r, s', a') := spline_fit s a in
      store X (PyArray a');;
      set_spline_transformer_ self s';;
      match r with
      | Returns _ => mret ()
      | Raises ex => raise ex
      end
  end.

(** [self.spline_transformer_.transform(X)]: the basis matrix is a new
    array. *)
Definition spline_transformer_transform (self X : loc) : Py loc :=
  e ← load_estimator self;
  a ← load_array X;
  match spline_transformer_ e with
  | None => raise (AttributeError "spline_transformer_")
  | Some s =>
      let '(r, s', a') := spline_transform s a in
      store X (PyArray a');;
      set_spline_transformer_ self s';;
      match r with
      | Returns B => alloc (PyArray B)
      | Raises ex => raise ex
      end
  end.

(** [fit(self, X, y=None)]. *)
Definition fit (self X : loc) (y : option loc) : Py loc :=
  X ← check_array X true false;
  e ← load_estimator self;
  set_spline_transformer_ self
    (SplineTransformer (n_knots e) (degree e) (knots e));;
  spline_transformer_fit self X;;
  mret self.

(** [transform(self, X)]. *)
Definition transform (self X : loc) : Py loc :=
  check_is_fitted self "spline_transformer_";;
  X ← check_array X false false;
  B ← spline_transformer_transform self X;
  ndarray_cumsum B 0.

End Estimator.

(** ** What the statements ask of the collaborator *)

Section Contract.
Context {F : Float64} {ST : SplineTransformerAPI F}.

(** The instance at [self] has its attribute set to [s], and [X] is an
    array [a] that passes the validation step. *)
Definition transform_ready (h : gmap loc pyobj) (self X : loc)
  (s : spline_obj) (a : ndarray) : Prop :=
  ∃ e n m,
    h !! self = Some (PyEstimator e)
    ∧ spline_transformer_ e = Some s
    ∧ h !! X = Some (PyArray a)
    ∧ shape a = Some (n, m)
    ∧ m ≠ 0.

(** [SplineTransformer.transform] assigns neither to the object nor to its
    argument. *)
Definition transform_is_pure : Prop :=
  ∀ s a r s' a', spline_transform s a = (r, s', a') → s' = s ∧ a' = a.

(** [SplineTransformer.transform] raises on an array whose column count is
    not the one seen by [fit]. *)
Definition transform_checks_n_features : Prop :=
  ∀ nk d k a0 s a0' n0 m0 a n m,
    spline_fit (SplineTransformer nk d k) a0 = (Returns (), s, a0') →
    shape a0 = Some (n0, m0) →
    shape a = Some (n, m) →
    m ≠ m0 →
    ∃ ex s' a', spline_transform s a = (Raises ex, s', a').

(** [SplineTransformer.transform] returns one row per sample and
    [n_knots + degree - 1] columns per column seen by [fit]. *)
Definition transform_n_features_out : Prop :=
  ∀ nk d k a0 s a0' n0 m0 a n m B s' a',
    spline_fit (SplineTransformer nk d k) a0 = (Returns (), s, a0') →
    shape a0 = Some (n0, m0) →
    shape a = Some (n, m) →
    spline_transform s a = (Returns B, s', a') →
    shape B = Some (n, m0 * Z.to_nat (nk + d - 1)).

(** [SplineTransformer.transform] works sample by sample: on the first rows
    of an array it returns the first rows of its result. *)
Definition transform_is_rowwise : Prop :=
  ∀ s a1 a2 B s' a',
    a1 ≠ [] →
    spline_transform s (a1 ++ a2) = (Returns B, s', a') →
    ∃ B1 B2 s1 a1',
      B = B1 ++ B2
      ∧ length B1 = length a1
      ∧ spline_transform s a1 = (Returns B1, s1, a1').

(** Column [c] of [O] is non-decreasing in the row index. *)
Definition nondecreasing (O : ndarray) : Prop :=
  ∀ c i j x y,
    i < j → item O i c = Some x → item O j c = Some y → fleb x y = true.

End Contract.

(** ** A reference element type: exact extended rationals *)

(** Rationals with the IEEE special values and exact addition. It is one
    instance of [Float64] on which both ordering facts hold, used to run the
    code on concrete inputs. *)
Module Exact.

Inductive xrat : Type :=
| Fin (q : Q)
| PInf
| NInf
| NaN.

Definition xadd (a b : xrat) : xrat :=
  match a, b with
  | NaN, _ | _, NaN => NaN
  | PInf, NInf | NInf, PInf => NaN
  | PInf, _ | _, PInf => PInf
  | NInf, _ | _, NInf => NInf
  | Fin p, Fin q => Fin (Qred (p + q))
  end.

Definition xleb (a b : xrat) : bool :=
  match a, b with
  | NaN, _ | _, NaN => false
  | NInf, _ | _, PInf => true
  | Fin p, Fin q => Qle_bool p q
  | _, _ => false
  end.

Definition xisnan (a : xrat) : bool :=
  match a with NaN => true | _ => false end.

Definition xisinf (a : xrat) : bool :=
  match a with PInf | NInf => true | _ => false end.

#[export] Instance float64_exact : Float64 := {|
  float64 := xrat;
  fadd := xadd;
  fleb := xleb;
  fzero := Fin 0;
  isnan := xisnan;
  isinf := xisinf;
|}.

End Exact.

(** ** IEEE-754 binary64 *)

(** numpy's float64 itself, as specified by the standard library's
    [SpecFloat] with 53 bits of precision and exponents up to 1024:
    addition rounds to nearest, ties to even. *)
Module Binary64.

Definition prec : Z := 53.
Definition emax : Z := 1024.

Definition b64_isnan (x : spec_float) : bool :=
  match x with S754_nan => true | _ => false end.

Definition b64_isinf (x : spec_float) : bool :=
  match x with S754_infinity _ => true | _ => false end.

#[export] Instance float64_binary64 : Float64 := {|
  float64 := spec_float;
  fadd := SFadd prec emax;
  fleb := SFleb;
  fzero := S754_zero false;
  isnan := b64_isnan;
  isinf := b64_isinf;
|}.

(** The doubles nearest to 0.1, 0.2 and 0.3, and the double
    0.30000000000000004. *)
Definition d0_1 : spec_float := S754_finite false 7205759403792794 (-56).
Definition d0_2 : spec_float := S754_finite false 7205759403792794 (-55).
Definition d0_3 : spec_float := S754_finite false 5404319552844595 (-54).
Definition d0_30000000000000004 : spec_float :=
  S754_finite false 5404319552844596 (-54).

End Binary64.

(** ** A reference collaborator: B-splines on uniform knots *)

(** An implementation of [SplineTransformerAPI] over [Exact.xrat], after
    the documented behaviour of scikit-learn's [SplineTransformer] with
    [knots="uniform"], [extrapolation="constant"] and [include_bias=True]:
    [fit] wants finite input with at least two samples, [n_knots >= 2] and
    [degree >= 0], and records the range of every column; [transform] wants
    a fitted object, finite input and the fit-time column count, and
    evaluates [n_knots + degree - 1] B-splines per column by the Cox-de Boor
    recursion. Neither method assigns to its argument. *)
Module UniformBSpline.
Import Exact.

Record state : Type := {
  st_n_knots : Z;
  st_degree : Z;
  st_knots : string;
  (* per column (min, max), set by fit *)
  st_ranges : option (list (Q * Q));
}.

Definition init (n_knots degree : Z) (knots : string) : state :=
  {| st_n_knots := n_knots; st_degree := degree; st_knots := knots;
     st_ranges := None |}.

Definition value (x : xrat) : Q :=
  match x with Fin q => q | _ => 0 end.

Definition qmin (a b : Q) : Q := if Qle_bool a b then a else b.
Definition qmax (a b : Q) : Q := if Qle_bool a b then b else a.

(** Minimum and maximum of every column of a non-empty finite matrix. *)
Definition ranges (a : list (list xrat)) : list (Q * Q) :=
  match a with
  | [] => []
  | r :: rows =>
      foldl (λ acc r', zip_with (λ '(lo, hi) x, (qmin lo (value x), qmax hi (value x))) acc r')
            (map (λ x, (value x, value x)) r) rows
  end.

(** Knot [j] of the extended knot vector: [degree] knots before [lo],
    [n_knots] knots from [lo] to [hi], [degree] knots after [hi], all at
    distance [(hi - lo) / (n_knots - 1)]. *)
Definition knot (n d : nat) (lo hi : Q) (j : nat) : Q :=
  lo + inject_Z (Z.of_nat j - Z.of_nat d) * ((hi - lo) / inject_Z (Z.of_nat n - 1)).

(** The index [l] in [d .. n+d-2] of the knot interval used at [x]: the
    last one whose left knot is at most [x]. *)
Definition interval (n d : nat) (lo hi x : Q) : nat :=
  foldl (λ l j, if Qle_bool (knot n d lo hi j) x then j else l)
        d (seq (d + 1) (n - 2)).

(** Cox-de Boor: B-spline [i] of degree [k] at [x], given the interval
    index [l] of [x]. *)
Fixpoint bspline (t : nat → Q) (l : nat) (x : Q) (k i : nat) : Q :=
  match k with
  | O => if Nat.eqb i l then 1 else 0
  | S k' =>
      ((x - t i) / (t (i + k)%nat - t i) * bspline t l x k' i
       + (t (i + k + 1)%nat - x) / (t (i + k + 1)%nat - t (i + 1)%nat)
         * bspline t l x k' (i + 1)%nat)%Q
  end.

(** The [n + d - 1] basis values of one column at [x], with constant
    extrapolation outside [lo, hi]. *)
Definition basis (n d : nat) (lohi : Q * Q) (x : Q) : list xrat :=
  let '(lo, hi) := lohi in
  let x' := qmax lo (qmin hi x) in
  let l := interval n d lo hi x' in
  map (λ i, Fin (Qred (bspline (knot n d lo hi) l x' d i))) (seq 0 (n + d - 1)).

Definition basis_row (n d : nat) (rs : list (Q * Q)) (r : list xrat) : list xrat :=
  concat (zip_with (λ lohi x, basis n d lohi (value x)) rs r).

Definition do_fit (s : state) (a : list (list xrat)) : outcome unit * state :=
  if negb (Z.leb 2 (st_n_knots s)) then (Raises (ValueError "n_knots must be >= 2"), s)
  else if negb (Z.leb 0 (st_degree s)) then (Raises (ValueError "degree must be >= 0"), s)
  else if negb (String.eqb (st_knots s) "uniform") then (Raises (ValueError "knots"), s)
  else match shape a with
       | None => (Raises (ValueError "Expected 2D array"), s)
       | Some (rows, _) =>
           if negb (all_finite a) then (Raises (ValueError "Input X contains NaN or infinity"), s)
           else if negb (Nat.leb 2 rows) then (Raises (ValueError "minimum of 2 samples is required"), s)
           else (Returns (),
                 {| st_n_knots := st_n_knots s; st_degree := st_degree s;
                    st_knots := st_knots s; st_ranges := Some (ranges a) |})
       end.

Definition do_transform (s : state) (a : list (list xrat)) : outcome (list (list xrat)) :=
  match st_ranges s with
  | None => Raises (NotFittedError "SplineTransformer")
  | Some rs =>
      match shape a with
      | None => Raises (ValueError "Expected 2D array")
      | Some (_, m) =>
          if negb (all_finite a) then Raises (ValueError "Input X contains NaN or infinity")
          else if negb (Nat.eqb m (length rs)) then Raises (ValueError "X has a different number of features")
          else Returns (map (basis_row (Z.to_nat (st_n_knots s)) (Z.to_nat (st_degree s)) rs) a)
      end
  end.

#[export] Instance api : SplineTransformerAPI float64_exact := {|
  spline_obj := state;
  SplineTransformer := init;
  spline_fit := λ s a, (do_fit s a, a);
  spline_transform := λ s a, (do_transform s a, s, a);
|}.

(** [numpy.linspace(0, 1, n)] as one column. *)
Definition linspace01 (n : nat) : list (list xrat) :=
  map (λ i, [Fin (Qred (inject_Z (Z.of_nat i) / inject_Z (Z.of_nat n - 1)))]) (seq 0 n).

End UniformBSpline.

(** ** Concrete inputs *)

(** A store with two fresh default instances and a few arrays, on the
    reference element type and collaborator. *)
Module Demo.
Import Exact UniformBSpline.

Definition estimator0 : MonotonicSplineTransformer :=
  __init__ default_n_knots default_degree default_knots.

(** 100 evenly spaced values from 0 to 1, one column. *)
Definition X100 : ndarray := linspace01 100.
(** Its first 40 rows and the 60 rows after them. *)
Definition X40 : ndarray := take 40 X100.
Definition X60 : ndarray := drop 40 X100.
(** Two columns. *)
Definition X2col : ndarray := [[Fin 0; Fin 1]; [Fin 1; Fin 0]].
(** No row, as [numpy.empty((0, 1))]. *)
Definition Xempty : ndarray := [].
(** One row, one column. *)
Definition X1row : ndarray := [[Fin 0]].
Definition Xnan : ndarray := [[NaN]; [Fin 0]; [Fin 1]].
Definition Xinf : ndarray := [[PInf]; [Fin 0]; [Fin 1]].

Definition self1 : loc := 1%positive.
Definition self2 : loc := 2%positive.
Definition lX100 : loc := 3%positive.
Definition lX40 : loc := 4%positive.
Definition lX2col : loc := 5%positive.
Definition lXempty : loc := 6%positive.
Definition lX1row : loc := 7%positive.
Definition lXnan : loc := 8%positive.
Definition lXinf : loc := 9%positive.

Definition store0 : gmap loc pyobj :=
  list_to_map
    [(self1, PyEstimator estimator0); (self2, PyEstimator estimator0);
     (lX100, PyArray X100); (lX40, PyArray X40); (lX2col, PyArray X2col);
     (lXempty, PyArray Xempty); (lX1row, PyArray X1row);
     (lXnan, PyArray Xnan); (lXinf, PyArray Xinf)].

(** The store after [self1.fit(X100)], and the fitted collaborator. *)
Definition store1 : gmap loc pyobj := (fit self1 lX100 None store0).2.
Definition fitted1 : state := (do_fit (init 3 3 "uniform") X100).2.
Definition estimator1 : MonotonicSplineTransformer :=
  with_spline_transformer_ estimator0 fitted1.

(** The basis matrices of [X100] and of its first 40 rows. *)
Definition basis_of (a : ndarray) : ndarray :=
  match do_transform fitted1 a with
  | Returns B => B
  | Raises _ => []
  end.

End Demo.

(** The fitted store of [Demo] with two more arrays: the samples 0 and 1 in
    the two possible orders. *)
Module DemoOrder.
Import Exact UniformBSpline Demo.

Definition Xab : ndarray := [[Fin 0]; [Fin 1]].
Definition Xba : ndarray := [[Fin 1]; [Fin 0]].

Definition lXab : loc := 20%positive.
Definition lXba : loc := 21%positive.

Definition store2 : gmap loc pyobj :=
  <[lXba := PyArray Xba]> (<[lXab := PyArray Xab]> store1).

(** The basis rows of the sample 0 and of the sample 1. *)
Definition basis_a : list xrat := basis_row 3 3 [(0, 1)%Q] [Fin 0].
Definition basis_b : list xrat := basis_row 3 3 [(0, 1)%Q] [Fin 1].

End DemoOrder.

(** * Facts about the running sum *)

Section CumsumFacts.
Context {F : Float64}.

Lemma row_add_lookup (acc r : list float64) (c : nat) (z : float64) :
  row_add acc r !! c = Some z ↔
  ∃ x y, acc !! c = Some x ∧ r !! c = Some y ∧ z = fadd x y.
Proof.
  unfold row_add. rewrite lookup_zip_with_Some.
  split; intros (x & y & H1 & H2 & H3); eauto 6.
Qed.

Lemma length_row_add (acc r : list float64) :
  length r = length acc → length (row_add acc r) = length acc.
Proof.
  intros Hlen. unfold row_add. rewrite length_zip_with. lia.
Qed.

Lemma length_cumsum_from (acc : list float64) (rows : ndarray) :
  length (cumsum_from acc rows) = length rows.
Proof.
  revert acc. induction rows as [|r rows IH]; intros acc; simpl; [done|].
  by rewrite IH.
Qed.

Lemma length_cumsum (a : ndarray) : length (cumsum a 0) = length a.
Proof.
  destruct a as [|r rows]; simpl; [done|]. by rewrite length_cumsum_from.
Qed.

Lemma cumsum_from_row_lengths (m : nat) (acc : list float64) (rows : ndarray) :
  length acc = m →
  forallb (λ r', Nat.eqb (length r') m) rows = true →
  forallb (λ r', Nat.eqb (length r') m) (cumsum_from acc rows) = true.
Proof.
  revert acc. induction rows as [|r rows IH]; intros acc Hacc Hrows; simpl in *; [done|].
  apply andb_prop in Hrows as [Hr Hrows]. apply Nat.eqb_eq in Hr.
  assert (length (row_add acc r) = m) as Hm.
  { rewrite length_row_add; lia. }
  rewrite Hm, Nat.eqb_refl. simpl. by apply IH.
Qed.

(** [cumsum(axis=0)] keeps the shape. *)
Lemma shape_cumsum (a : ndarray) (n m : nat) :
  shape a = Some (n, m) → shape (cumsum a 0) = Some (n, m).
Proof.
  destruct a as [|r rows]; simpl; [done|].
  destruct (forallb _ rows) eqn:Hrows; [|done]. intros [= <- <-].
  rewrite (cumsum_from_row_lengths (length r) r rows) by done.
  by rewrite length_cumsum_from.
Qed.

(** The running sum of a longer array starts with the running sum of its
    first rows. *)
Lemma cumsum_from_app (acc : list float64) (rows1 rows2 : ndarray) :
  take (length rows1) (cumsum_from acc (rows1 ++ rows2)) = cumsum_from acc rows1.
Proof.
  revert acc. induction rows1 as [|r rows1 IH]; intros acc; simpl.
  - by rewrite take_0.
  - by rewrite IH.
Qed.

Lemma cumsum_prefix (a1 a2 : ndarray) :
  a1 ≠ [] → take (length a1) (cumsum (a1 ++ a2) 0) = cumsum a1 0.
Proof.
  destruct a1 as [|r rows1]; [done|]. intros _. simpl.
  by rewrite cumsum_from_app.
Qed.

(** The last row of the running sum holds the column totals. *)
Lemma cumsum_from_last (c : nat) (rows : ndarray) :
  ∀ (acc : list float64) (x : float64) (col : list float64),
    acc !! c = Some x →
    column c rows = Some col →
    last (acc :: cumsum_from acc rows) ≫= (.!! c) = Some (foldl fadd x col).
Proof.
  unfold column.
  induction rows as [|r rows IH]; intros acc x col Hacc Hcol; simpl in *.
  - injection Hcol as <-. done.
  - destruct (r !! c) as [y|] eqn:Hy; simpl in Hcol; [|done].
    destruct (mapM _ rows) as [col'|] eqn:Hcol'; simpl in Hcol; [|done].
    injection Hcol as <-. simpl.
    apply (IH (row_add acc r) (fadd x y) col'); [|done].
    apply row_add_lookup. eauto.
Qed.

Lemma cumsum_last (c : nat) (a : ndarray) (col : list float64) :
  column c a = Some col →
  last (cumsum a 0) ≫= (.!! c) = sum_left col.
Proof.
  destruct a as [|r rows]; unfold column; simpl.
  - by intros [= <-].
  - destruct (r !! c) as [x|] eqn:Hx; simpl; [|done].
    destruct (mapM _ rows) as [col'|] eqn:Hcol'; simpl; [|done].
    intros [= <-]. simpl. by apply cumsum_from_last.
Qed.

(** The first row of the running sum is the first row of the array, so two
    arrays whose first rows differ have different running sums. *)
Lemma cumsum_first_row (a : ndarray) : head (cumsum a 0) = head a.
Proof. by destruct a. Qed.

Section Monotone.
Context {FO : Float64Order F}.

Lemma row_add_nonneg (acc r : list float64) :
  Forall nonneg acc → Forall nonneg r → Forall nonneg (row_add acc r).
Proof.
  intros Hacc Hr. apply Forall_lookup. intros c z Hz.
  apply row_add_lookup in Hz as (x & y & Hx & Hy & ->).
  pose proof (proj1 (Forall_lookup _ _) Hacc c x Hx) as Hx0.
  pose proof (proj1 (Forall_lookup _ _) Hr c y Hy) as Hy0.
  unfold nonneg in *.
  eapply fleb_trans; [exact Hx0|]. by apply fadd_nonneg_le.
Qed.

(** Every later value of the running sum is at least the accumulator it
    started from. *)
Lemma cumsum_from_ge_acc (rows : ndarray) :
  ∀ (acc : list float64) (j c : nat) (y : float64),
    Forall nonneg acc →
    Forall (Forall nonneg) rows →
    item (cumsum_from acc rows) j c = Some y →
    ∃ x, acc !! c = Some x ∧ fleb x y = true.
Proof.
  unfold item.
  induction rows as [|r rows IH]; intros acc j c y Hacc Hrows Hy; simpl in *.
  - done.
  - apply Forall_cons in Hrows as [Hr Hrows].
    pose proof (row_add_nonneg acc r Hacc Hr) as Hacc'.
    destruct j as [|j]; simpl in Hy.
    + apply row_add_lookup in Hy as (x & y0 & Hx & Hy0 & ->).
      exists x. split; [done|].
      apply fadd_nonneg_le.
      * exact (proj1 (Forall_lookup _ _) Hacc c x Hx).
      * exact (proj1 (Forall_lookup _ _) Hr c y0 Hy0).
    + destruct (IH _ _ _ _ Hacc' Hrows Hy) as (x' & Hx' & Hle).
      apply row_add_lookup in Hx' as (x & y0 & Hx & Hy0 & ->).
      exists x. split; [done|].
      eapply fleb_trans; [|exact Hle].
      apply fadd_nonneg_le.
      * exact (proj1 (Forall_lookup _ _) Hacc c x Hx).
      * exact (proj1 (Forall_lookup _ _) Hr c y0 Hy0).
Qed.

Lemma cumsum_from_monotone (rows : ndarray) :
  ∀ (acc : list float64) (i j c : nat) (x y : float64),
    Forall nonneg acc →
    Forall (Forall nonneg) rows →
    i < j →
    item (cumsum_from acc rows) i c = Some x →
    item (cumsum_from acc rows) j c = Some y →
    fleb x y = true.
Proof.
  induction rows as [|r rows IH]; intros acc i j c x y Hacc Hrows Hij Hx Hy.
  - unfold item in Hx. by destruct i.
  - apply Forall_cons in Hrows as [Hr Hrows].
    pose proof (row_add_nonneg acc r Hacc Hr) as Hacc'.
    destruct j as [|j]; [lia|].
    destruct i as [|i].
    + change (item (cumsum_from (row_add acc r) rows) j c = Some y) in Hy.
      destruct (cumsum_from_ge_acc _ _ _ _ _ Hacc' Hrows Hy) as (x' & Hx' & Hle).
      unfold item in Hx. simpl in Hx. by simplify_eq.
    + apply (IH (row_add acc r) i j c x y); auto with lia.
Qed.

(** A running sum of non-negative values is non-decreasing down every
    column. *)
Lemma cumsum_monotone (a : ndarray) (i j c : nat) (x y : float64) :
  Forall (Forall nonneg) a →
  i < j →
  item (cumsum a 0) i c = Some x →
  item (cumsum a 0) j c = Some y →
  fleb x y = true.
Proof.
  destruct a as [|r rows]; intros Ha Hij Hx Hy.
  - unfold item in Hx. by destruct i.
  - apply Forall_cons in Ha as [Hr Hrows]. simpl in Hx, Hy.
    destruct j as [|j]; [lia|].
    destruct i as [|i].
    + change (item (cumsum_from r rows) j c = Some y) in Hy.
      destruct (cumsum_from_ge_acc _ _ _ _ _ Hr Hrows Hy) as (x' & Hx' & Hle).
      unfold item in Hx. simpl in Hx. by simplify_eq.
    + apply (cumsum_from_monotone rows r i j c x y); auto with lia.
Qed.

End Monotone.
End CumsumFacts.

(** On binary64 the running sum rounds at every step: 0.1 + 0.1 + 0.1 ends
    at 0.30000000000000004, one unit in the last place above the double
    nearest to 0.3. *)
Lemma cumsum_binary64_rounds :
  cumsum (F := Binary64.float64_binary64)
    [[Binary64.d0_1]; [Binary64.d0_1]; [Binary64.d0_1]] 0
  = [[Binary64.d0_1]; [Binary64.d0_2]; [Binary64.d0_30000000000000004]]
  ∧ Binary64.d0_30000000000000004 ≠ Binary64.d0_3.
Proof. split; [vm_compute; reflexivity|discriminate]. Qed.

(** * Running the methods *)

Section Runs.
Context {F : Float64} {ST : SplineTransformerAPI F}.

Implicit Types (h : gmap loc pyobj) (e : MonotonicSplineTransformer).
Implicit Types (a B : ndarray) (s : spline_obj).

Lemma bind_run {A B : Type} (m : Py A) (k : A → Py B) h :
  (m ≫= k) h =
  match m h with
  | (Returns x, h') => k x h'
  | (Raises ex, h') => (Raises ex, h')
  end.
Proof. reflexivity. Qed.

Lemma load_array_run h l a :
  h !! l = Some (PyArray a) → load_array l h = (Returns a, h).
Proof. intros Hl. unfold load_array. by rewrite Hl. Qed.

Lemma load_estimator_run h l e :
  h !! l = Some (PyEstimator e) → load_estimator l h = (Returns e, h).
Proof. intros Hl. unfold load_estimator. by rewrite Hl. Qed.

Lemma set_spline_transformer__run h self e s :
  h !! self = Some (PyEstimator e) →
  set_spline_transformer_ self s h
  = (Returns (), <[self := PyEstimator (with_spline_transformer_ e s)]> h).
Proof.
  intros Hself. unfold set_spline_transformer_.
  by rewrite bind_run, (load_estimator_run _ _ _ Hself).
Qed.

(** The location of a new object is not in use. *)
Lemma fresh_lookup h : h !! fresh (dom h) = None.
Proof. apply not_elem_of_dom, is_fresh. Qed.

Lemma fresh_ne h l (o : pyobj) : h !! l = Some o → fresh (dom h) ≠ l.
Proof. intros Hl Heq. by rewrite <- Heq, fresh_lookup in Hl. Qed.

(** The validation step with [force_all_finite=False]: any array with a
    shape and at least one column passes. *)
Lemma check_array_run h X a n m (copy : bool) :
  h !! X = Some (PyArray a) →
  shape a = Some (n, m) →
  m ≠ 0 →
  check_array X copy false h
  = if copy then (Returns (fresh (dom h)), <[fresh (dom h) := PyArray a]> h)
    else (Returns X, h).
Proof.
  intros HX Hshape Hm. unfold check_array.
  rewrite bind_run, (load_array_run _ _ _ HX), Hshape. simpl.
  destruct (Nat.eqb_spec m 0) as [->|_]; [done|].
  by destruct copy.
Qed.

(** The validation step raises [ValueError] on an array without a shape or
    without columns, and leaves the store as it is. *)
Lemma check_array_invalid h X a (copy faf : bool) :
  h !! X = Some (PyArray a) →
  (shape a = None ∨ ∃ n, shape a = Some (n, 0)) →
  ∃ msg, check_array X copy faf h = (Raises (ValueError msg), h).
Proof.
  intros HX Hshape. unfold check_array.
  rewrite bind_run, (load_array_run _ _ _ HX).
  destruct Hshape as [->|[n ->]]; [by eexists|].
  destruct (faf && negb (all_finite a)); by eexists.
Qed.

Lemma check_is_fitted_run h self e attr :
  h !! self = Some (PyEstimator e) →
  check_is_fitted self attr h
  = if hasattr e attr then (Returns (), h)
    else (Raises (NotFittedError "MonotonicSplineTransformer"), h).
Proof.
  intros Hself. unfold check_is_fitted.
  rewrite bind_run, (load_estimator_run _ _ _ Hself).
  by destruct (hasattr e attr).
Qed.

Lemma hasattr_spline_transformer_ e :
  hasattr e "spline_transformer_" = bool_decide (is_Some (spline_transformer_ e)).
Proof. reflexivity. Qed.

Lemma spline_transformer_transform_run h self X e s a r s' a' :
  h !! self = Some (PyEstimator e) →
  spline_transformer_ e = Some s →
  h !! X = Some (PyArray a) →
  spline_transform s a = (r, s', a') →
  spline_transformer_transform self X h
  = match r with
    | Returns B => alloc (PyArray B) (after_call h self X e s' a')
    | Raises ex => (Raises ex, after_call h self X e s' a')
    end.
Proof.
  intros Hself Hs HX Hrun. unfold spline_transformer_transform.
  rewrite bind_run, (load_estimator_run _ _ _ Hself).
  rewrite bind_run, (load_array_run _ _ _ HX), Hs, Hrun.
  rewrite bind_run. unfold store at 1.
  assert (X ≠ self) as Hne by (intros ->; congruence).
  rewrite bind_run, (set_spline_transformer__run _ _ e).
  - by destruct r.
  - by rewrite lookup_insert_ne.
Qed.

Lemma spline_transformer_fit_run h self X e s a r s' a' :
  h !! self = Some (PyEstimator e) →
  spline_transformer_ e = Some s →
  h !! X = Some (PyArray a) →
  spline_fit s a = (r, s', a') →
  spline_transformer_fit self X h
  = match r with
    | Returns _ => (Returns (), after_call h self X e s' a')
    | Raises ex => (Raises ex, after_call h self X e s' a')
    end.
Proof.
  intros Hself Hs HX Hrun. unfold spline_transformer_fit.
  rewrite bind_run, (load_estimator_run _ _ _ Hself).
  rewrite bind_run, (load_array_run _ _ _ HX), Hs, Hrun.
  rewrite bind_run. unfold store at 1.
  assert (X ≠ self) as Hne by (intros ->; congruence).
  rewrite bind_run, (set_spline_transformer__run _ _ e).
  - by destruct r.
  - by rewrite lookup_insert_ne.
Qed.

Lemma with_spline_transformer__id e s :
  spline_transformer_ e = Some s → with_spline_transformer_ e s = e.
Proof. destruct e; simpl; by intros ->. Qed.

Lemma after_call_lookup_self h self X e s' a' :
  after_call h self X e s' a' !! self
  = Some (PyEstimator (with_spline_transformer_ e s')).
Proof. unfold after_call. by rewrite lookup_insert_eq. Qed.

Lemma after_call_lookup_X h self X e s' a' :
  X ≠ self → after_call h self X e s' a' !! X = Some (PyArray a').
Proof.
  intros Hne. unfold after_call.
  by rewrite lookup_insert_ne, lookup_insert_eq.
Qed.

Lemma after_call_lookup_other h self X e s' a' l :
  l ≠ self → l ≠ X → after_call h self X e s' a' !! l = h !! l.
Proof.
  intros Hself HX. unfold after_call.
  by rewrite !lookup_insert_ne.
Qed.

(** A collaborator call that leaves its object and its argument as they
    were leaves the store as it was. *)
Lemma after_call_id h self X e s a :
  h !! self = Some (PyEstimator e) →
  spline_transformer_ e = Some s →
  h !! X = Some (PyArray a) →
  after_call h self X e s a = h.
Proof.
  intros Hself Hs HX. unfold after_call.
  rewrite (with_spline_transformer__id _ _ Hs).
  rewrite (insert_id h X) by done. by rewrite insert_id.
Qed.

Lemma after_call_dom h self X e s' a' l :
  is_Some (h !! l) → is_Some (after_call h self X e s' a' !! l).
Proof.
  intros Hl. unfold after_call.
  destruct (decide (l = self)) as [->|Hself]; [by rewrite lookup_insert_eq|].
  rewrite lookup_insert_ne by done.
  destruct (decide (l = X)) as [->|HX]; [by rewrite lookup_insert_eq|].
  by rewrite lookup_insert_ne.
Qed.

(** [transform] on an instance whose attribute is set and an array that
    passes validation: the outcome is the collaborator's, and a returned
    basis matrix is summed down the rows into a new array. *)
Lemma transform_run h self X e s a n m r s' a' :
  h !! self = Some (PyEstimator e) →
  spline_transformer_ e = Some s →
  h !! X = Some (PyArray a) →
  shape a = Some (n, m) →
  m ≠ 0 →
  spline_transform s a = (r, s', a') →
  transform self X h
  = match r with
    | Returns B =>
        (alloc (PyArray B) ≫= λ lB, ndarray_cumsum lB 0)
          (after_call h self X e s' a')
    | Raises ex => (Raises ex, after_call h self X e s' a')
    end.
Proof.
  intros Hself Hs HX Hshape Hm Hrun. unfold transform.
  rewrite bind_run, (check_is_fitted_run _ _ _ _ Hself).
  rewrite hasattr_spline_transformer_, Hs.
  rewrite bool_decide_eq_true_2 by eauto.
  rewrite bind_run, (check_array_run _ _ _ _ _ false HX Hshape Hm).
  rewrite bind_run, (spline_transformer_transform_run _ _ _ _ _ _ _ _ _ Hself Hs HX Hrun).
  by destruct r.
Qed.

(** The result of a returning [transform]. *)
Lemma transform_returns h self X e s a n m B s' a' :
  h !! self = Some (PyEstimator e) →
  spline_transformer_ e = Some s →
  h !! X = Some (PyArray a) →
  shape a = Some (n, m) →
  m ≠ 0 →
  spline_transform s a = (Returns B, s', a') →
  ∃ out h',
    transform self X h = (Returns out, h')
    ∧ h' !! out = Some (PyArray (cumsum B 0))
    ∧ h !! out = None
    ∧ h' !! self = Some (PyEstimator (with_spline_transformer_ e s'))
    ∧ h' !! X = Some (PyArray a')
    ∧ ∀ l, l ≠ self → l ≠ X → is_Some (h !! l) → h' !! l = h !! l.
Proof.
  intros Hself Hs HX Hshape Hm Hrun.
  rewrite (transform_run _ _ _ _ _ _ _ _ _ _ _ Hself Hs HX Hshape Hm Hrun).
  assert (X ≠ self) as Hne by (intros ->; congruence).
  set (h1 := after_call h self X e s' a').
  rewrite bind_run. unfold alloc at 1.
  set (lB := fresh (dom h1)). set (h2 := <[lB := PyArray B]> h1).
  unfold ndarray_cumsum.
  rewrite bind_run, (load_array_run h2 lB B) by apply lookup_insert_eq.
  unfold alloc. set (lO := fresh (dom h2)).
  assert (h2 !! lO = None) as HlO by apply fresh_lookup.
  assert (h1 !! lB = None) as HlB by apply fresh_lookup.
  assert (lO ≠ lB) as HOB.
  { intros Heq. rewrite Heq in HlO. unfold h2 in HlO.
    by rewrite lookup_insert_eq in HlO. }
  assert (h1 !! lO = None) as HlO1.
  { unfold h2 in HlO. by rewrite lookup_insert_ne in HlO. }
  assert (∀ l, is_Some (h !! l) → l ≠ lO ∧ l ≠ lB) as Hold.
  { intros l Hl. apply (after_call_dom h self X e s' a') in Hl.
    fold h1 in Hl. split; intros ->; rewrite ?HlO1, ?HlB in Hl;
      by destruct Hl. }
  exists lO, (<[lO := PyArray (cumsum B 0)]> h2).
  split_and!.
  - done.
  - by rewrite lookup_insert_eq.
  - destruct (h !! lO) eqn:Hl; [|done].
    by destruct (Hold lO (mk_is_Some _ _ Hl)) as [? _].
  - destruct (Hold self) as [? ?]; [by rewrite Hself|].
    unfold h2. rewrite !lookup_insert_ne by done.
    apply after_call_lookup_self.
  - destruct (Hold X) as [? ?]; [by rewrite HX|].
    unfold h2. rewrite !lookup_insert_ne by done.
    by apply after_call_lookup_X.
  - intros l Hlself HlX Hl. destruct (Hold l Hl) as [? ?].
    unfold h2. rewrite !lookup_insert_ne by done.
    by apply after_call_lookup_other.
Qed.

(** [transform] either raises before it reaches the collaborator, leaving
    the store as it was, or it finds the attribute set and a valid array. *)
Lemma transform_cases h self X :
  (∃ ex, transform self X h = (Raises ex, h))
  ∨ (∃ e s a n m,
        h !! self = Some (PyEstimator e)
        ∧ spline_transformer_ e = Some s
        ∧ h !! X = Some (PyArray a)
        ∧ shape a = Some (n, m)
        ∧ m ≠ 0).
Proof.
  unfold transform. rewrite bind_run.
  destruct (h !! self) as [[a0|e]|] eqn:Hself.
  - left. unfold check_is_fitted, load_estimator.
    rewrite bind_run, Hself. by eexists.
  - rewrite (check_is_fitted_run _ _ _ _ Hself), hasattr_spline_transformer_.
    destruct (spline_transformer_ e) as [s|] eqn:Hs.
    + rewrite bool_decide_eq_true_2 by eauto. rewrite bind_run.
      destruct (h !! X) as [[a|e']|] eqn:HX.
      * destruct (shape a) as [[n m]|] eqn:Hshape.
        -- destruct (decide (m = 0)) as [->|Hm].
           ++ left.
              destruct (check_array_invalid h X a false false HX) as [msg ->];
                [eauto|]. by eexists.
           ++ right. by exists e, s, a, n, m.
        -- left.
           destruct (check_array_invalid h X a false false HX) as [msg ->];
             [eauto|]. by eexists.
      * left. unfold check_array, load_array. rewrite bind_run, HX. by eexists.
      * left. unfold check_array, load_array. rewrite bind_run, HX. by eexists.
    + left. rewrite bool_decide_eq_false_2; [by eexists|].
      by intros [? ?].
  - left. unfold check_is_fitted, load_estimator.
    rewrite bind_run, Hself. by eexists.
Qed.

(** [transform] on an instance without the attribute raises
    [NotFittedError], whatever [X] is. *)
Lemma transform_attribute_absent h self X e :
  h !! self = Some (PyEstimator e) →
  spline_transformer_ e = None →
  transform self X h = (Raises (NotFittedError "MonotonicSplineTransformer"), h).
Proof.
  intros Hself Hs. unfold transform.
  rewrite bind_run, (check_is_fitted_run _ _ _ _ Hself).
  rewrite hasattr_spline_transformer_, Hs.
  rewrite bool_decide_eq_false_2; [done|]. by intros [? ?].
Qed.

Lemma after_call_overwrite h self X e s0 a s' a' :
  after_call (<[self := PyEstimator (with_spline_transformer_ e s0)]>
                (<[X := PyArray a]> h))
             self X (with_spline_transformer_ e s0) s' a'
  = after_call h self X e s' a'.
Proof.
  unfold after_call. apply map_eq. intros l.
  destruct (decide (l = self)) as [->|Hl1].
  { by rewrite !lookup_insert_eq. }
  rewrite !(lookup_insert_ne _ self) by done.
  destruct (decide (l = X)) as [->|Hl2].
  { by rewrite !lookup_insert_eq. }
  by rewrite !lookup_insert_ne.
Qed.

(** [fit] on a valid array: the validated copy is a new array, the
    collaborator is built from the three parameters and fitted on the copy;
    the outcome is the collaborator's. *)
Lemma fit_run h self X y e a n m r s' a' :
  h !! self = Some (PyEstimator e) →
  h !! X = Some (PyArray a) →
  shape a = Some (n, m) →
  m ≠ 0 →
  spline_fit (SplineTransformer (n_knots e) (degree e) (knots e)) a = (r, s', a') →
  fit self X y h
  = (match r with Returns _ => Returns self | Raises ex => Raises ex end,
     after_call h self (fresh (dom h)) e s' a').
Proof.
  intros Hself HX Hshape Hm Hrun. unfold fit.
  rewrite bind_run, (check_array_run _ _ _ _ _ true HX Hshape Hm).
  set (lX := fresh (dom h)).
  assert (lX ≠ self) as Hne by (by apply (fresh_ne h self (PyEstimator e))).
  rewrite bind_run, (load_estimator_run _ _ e)
    by (by rewrite lookup_insert_ne).
  rewrite bind_run, (set_spline_transformer__run _ _ e)
    by (by rewrite lookup_insert_ne).
  rewrite bind_run.
  rewrite (spline_transformer_fit_run _ self lX
             (with_spline_transformer_ e
                (SplineTransformer (n_knots e) (degree e) (knots e)))
             (SplineTransformer (n_knots e) (degree e) (knots e)) a r s' a');
    [| by rewrite lookup_insert_eq | done
     | by rewrite lookup_insert_ne, lookup_insert_eq | done].
  rewrite after_call_overwrite.
  by destruct r.
Qed.

(** A returning [fit] returns [self], with the collaborator fitted on the
    contents of [X]. *)
Lemma fit_returns_inv h self X y out h1 a :
  h !! X = Some (PyArray a) →
  fit self X y h = (Returns out, h1) →
  out = self
  ∧ ∃ e n m s a',
      h !! self = Some (PyEstimator e)
      ∧ shape a = Some (n, m)
      ∧ m ≠ 0
      ∧ spline_fit (SplineTransformer (n_knots e) (degree e) (knots e)) a
        = (Returns (), s, a')
      ∧ h1 = after_call h self (fresh (dom h)) e s a'.
Proof.
  intros HX Hfit.
  destruct (shape a) as [[n m]|] eqn:Hshape; cycle 1.
  { destruct (check_array_invalid h X a true false HX) as [msg Hca]; [eauto|].
    unfold fit in Hfit. rewrite bind_run, Hca in Hfit. done. }
  destruct (decide (m = 0)) as [->|Hm].
  { destruct (check_array_invalid h X a true false HX) as [msg Hca]; [eauto|].
    unfold fit in Hfit. rewrite bind_run, Hca in Hfit. done. }
  destruct (h !! self) as [[a0|e]|] eqn:Hself.
  - unfold fit in Hfit.
    rewrite bind_run, (check_array_run _ _ _ _ _ true HX Hshape Hm) in Hfit.
    unfold load_estimator in Hfit.
    rewrite bind_run, lookup_insert_ne, Hself in Hfit; [done|].
    by apply (fresh_ne h self (PyArray a0)).
  - destruct (spline_fit (SplineTransformer (n_knots e) (degree e) (knots e)) a)
      as [[r s] a'] eqn:Hrun.
    rewrite (fit_run _ _ _ _ _ _ _ _ _ _ _ Hself HX Hshape Hm Hrun) in Hfit.
    destruct r as [[]|ex]; [|done].
    injection Hfit as <- <-. split; [done|].
    by exists e, n, m, s, a'.
  - unfold fit in Hfit.
    rewrite bind_run, (check_array_run _ _ _ _ _ true HX Hshape Hm) in Hfit.
    unfold load_estimator in Hfit. rewrite bind_run in Hfit.
    destruct (decide (fresh (dom h) = self)) as [Heq|Hne].
    + by rewrite Heq, lookup_insert_eq in Hfit.
    + by rewrite lookup_insert_ne, Hself in Hfit.
Qed.

End Runs.

(** * Properties of [fit] and [transform] *)

Section Properties.
Context {F : Float64} {ST : SplineTransformerAPI F}.

Implicit Types (h : gmap loc pyobj) (e : MonotonicSplineTransformer).
Implicit Types (a B : ndarray) (s : spline_obj).

(** A returning [transform] found the attribute set and a valid array, and
    its result is the running sum of what the collaborator returned. *)
Lemma transform_returns_inv h self X out h' :
  transform self X h = (Returns out, h') →
  ∃ s a B s' a',
    transform_ready h self X s a
    ∧ spline_transform s a = (Returns B, s', a')
    ∧ h' !! out = Some (PyArray (cumsum B 0)).
Proof.
  intros Hrun.
  destruct (transform_cases h self X) as [[ex Hex]|(e & s & a & n & m & Hpre)].
  { congruence. }
  destruct Hpre as (Hself & Hs & HX & Hshape & Hm).
  destruct (spline_transform s a) as [[r s'] a'] eqn:Hcall.
  destruct r as [B|ex].
  - destruct (transform_returns _ _ _ _ _ _ _ _ _ _ _ Hself Hs HX Hshape Hm Hcall)
      as (out' & h'' & Hrun' & Hout & _).
    rewrite Hrun in Hrun'. injection Hrun' as -> ->.
    exists s, a, B, s', a'. split_and!; [|done..].
    by exists e, n, m.
  - rewrite (transform_run _ _ _ _ _ _ _ _ _ _ _ Hself Hs HX Hshape Hm Hcall) in Hrun.
    done.
Qed.

(** With a read-only collaborator, what [transform] leaves behind is the
    store it found plus, when it returns, the new result. *)
Lemma transform_pure_frame h self X r h' :
  transform_is_pure →
  transform self X h = (r, h') →
  (∀ l, is_Some (h !! l) → h' !! l = h !! l)
  ∧ (∀ out, r = Returns out →
       h !! out = None
       ∧ ∃ s a B,
           transform_ready h self X s a
           ∧ spline_transform s a = (Returns B, s, a)
           ∧ h' !! out = Some (PyArray (cumsum B 0))).
Proof.
  intros Hpure Hrun.
  destruct (transform_cases h self X) as [[ex Hex]|(e & s & a & n & m & Hpre)].
  { rewrite Hrun in Hex. injection Hex as -> ->. split; [done|]. by intros. }
  destruct Hpre as (Hself & Hs & HX & Hshape & Hm).
  destruct (spline_transform s a) as [[r0 s'] a'] eqn:Hcall.
  destruct (Hpure _ _ _ _ _ Hcall) as [-> ->].
  destruct r0 as [B|ex].
  - destruct (transform_returns _ _ _ _ _ _ _ _ _ _ _ Hself Hs HX Hshape Hm Hcall)
      as (out' & h'' & Hrun' & Hout & Hnew & Hself' & HX' & Hother).
    rewrite Hrun in Hrun'. injection Hrun' as -> ->.
    rewrite (with_spline_transformer__id _ _ Hs) in Hself'.
    split.
    + intros l Hl.
      destruct (decide (l = self)) as [->|Hne1]; [congruence|].
      destruct (decide (l = X)) as [->|Hne2]; [congruence|].
      by apply Hother.
    + intros out [= <-]. split; [done|].
      exists s, a, B. split_and!; [|done..]. by exists e, n, m.
  - rewrite (transform_run _ _ _ _ _ _ _ _ _ _ _ Hself Hs HX Hshape Hm Hcall) in Hrun.
    injection Hrun as <- <-.
    rewrite (after_call_id _ _ _ _ _ _ Hself Hs HX). split; [done|]. by intros.
Qed.

Lemma transform_ready_returns h self X s a B s' a' :
  transform_ready h self X s a →
  spline_transform s a = (Returns B, s', a') →
  ∃ out h', transform self X h = (Returns out, h')
            ∧ h' !! out = Some (PyArray (cumsum B 0)).
Proof.
  intros (e & n & m & Hself & Hs & HX & Hshape & Hm) Hcall.
  destruct (transform_returns _ _ _ _ _ _ _ _ _ _ _ Hself Hs HX Hshape Hm Hcall)
    as (out & h' & Hrun & Hout & _).
  eauto.
Qed.

Lemma shape_app_l a1 a2 n m :
  a1 ≠ [] → shape (a1 ++ a2) = Some (n, m) → shape a1 = Some (length a1, m).
Proof.
  destruct a1 as [|r rows]; [done|]. intros _. simpl.
  rewrite forallb_app.
  destruct (forallb _ rows); simpl; [|done].
  destruct (forallb _ a2); [|done]. by intros [= _ <-].
Qed.

(** ** C1 *)

(** C1. On an instance whose attribute is set and an array that passes
    validation, when the spline collaborator returns a basis matrix whose
    entries are all non-negative, [transform] returns, and every column of
    its result is non-decreasing in the row index: for rows [i < j],
    [O[i, c] <= O[j, c]]. *)
Theorem transform_columns_nondecreasing (FO : Float64Order F)
    h self X s a B s' a' :
  transform_ready h self X s a →
  spline_transform s a = (Returns B, s', a') →
  Forall (Forall nonneg) B →
  ∃ out h' O,
    transform self X h = (Returns out, h')
    ∧ h' !! out = Some (PyArray O)
    ∧ nondecreasing O.
Proof.
  intros Hready Hcall Hnonneg.
  destruct (transform_ready_returns _ _ _ _ _ _ _ _ Hready Hcall)
    as (out & h' & Hrun & Hout).
  exists out, h', (cumsum B 0). split_and!; [done..|].
  intros c i j x y Hij Hx Hy.
  by apply (cumsum_monotone B i j c x y).
Qed.

(** ** C8 *)

(** C8. When the collaborator returns the basis matrix [B] for [X], the
    last row of [transform(X)] holds, in every column, the sum of that
    column of [B] over all rows, added from the first row to the last. *)
Theorem transform_last_row_is_column_total h self X s a B s' a' :
  transform_ready h self X s a →
  spline_transform s a = (Returns B, s', a') →
  ∃ out h' O,
    transform self X h = (Returns out, h')
    ∧ h' !! out = Some (PyArray O)
    ∧ ∀ c col, column c B = Some col → last O ≫= (.!! c) = sum_left col.
Proof.
  intros Hready Hcall.
  destruct (transform_ready_returns _ _ _ _ _ _ _ _ Hready Hcall)
    as (out & h' & Hrun & Hout).
  exists out, h', (cumsum B 0). split_and!; [done..|].
  intros c col Hcol. by apply cumsum_last.
Qed.

(** ** C6 *)

(** C6. With a read-only collaborator, a second [transform] of the same
    [X] on the same instance returns as the first one did, and the two
    results are the same matrix (the first result is still intact). *)
Theorem transform_twice_same_output h self X out1 h1 :
  transform_is_pure →
  transform self X h = (Returns out1, h1) →
  ∃ out2 h2 O,
    transform self X h1 = (Returns out2, h2)
    ∧ h1 !! out1 = Some (PyArray O)
    ∧ h2 !! out2 = Some (PyArray O)
    ∧ h2 !! out1 = Some (PyArray O).
Proof.
  intros Hpure Hrun1.
  destruct (transform_pure_frame _ _ _ _ _ Hpure Hrun1) as [Hframe1 Hres1].
  destruct (Hres1 out1 eq_refl) as (Hnew1 & s & a & B & Hready & Hcall & Hout1).
  assert (transform_ready h1 self X s a) as Hready1.
  { destruct Hready as (e & n & m & Hself & Hs & HX & Hshape & Hm).
    exists e, n, m. split_and!; try done.
    - rewrite Hframe1; [done|]. by rewrite Hself.
    - rewrite Hframe1; [done|]. by rewrite HX. }
  destruct (transform_ready_returns _ _ _ _ _ _ _ _ Hready1 Hcall)
    as (out2 & h2 & Hrun2 & Hout2).
  destruct (transform_pure_frame _ _ _ _ _ Hpure Hrun2) as [Hframe2 _].
  exists out2, h2, (cumsum B 0). split_and!; try done.
  rewrite Hframe2; [done|]. by rewrite Hout1.
Qed.

(** ** C10 *)

(** C10. With a read-only collaborator, [transform] leaves every object of
    the store as it found it, in particular the array [X] and the instance
    with its [spline_transformer_]; and what it returns is an array at a
    location that was not in use before the call. *)
Theorem transform_leaves_store_unchanged h self X r h' :
  transform_is_pure →
  transform self X h = (r, h') →
  (∀ l, is_Some (h !! l) → h' !! l = h !! l)
  ∧ (∀ out, r = Returns out → h !! out = None ∧ ∃ O, h' !! out = Some (PyArray O)).
Proof.
  intros Hpure Hrun.
  destruct (transform_pure_frame _ _ _ _ _ Hpure Hrun) as [Hframe Hres].
  split; [done|]. intros out Hout.
  destruct (Hres out Hout) as (Hnew & s & a & B & _ & _ & HO). eauto.
Qed.

(** ** C9 *)

(** C9. With a collaborator that works sample by sample: when [transform]
    returns on an array made of the rows [a1] followed by the rows [a2], it
    returns on [a1] alone, and that result is the first [length a1] rows of
    the result for the longer array. The order of the rows matters: for two
    samples [ra] and [rb] whose basis rows [ba] and [bb] hold, in some
    column, two different values [x] and [y] with [x + y] different from
    [y], [transform] on [ra; rb] gives [x] and then [x + y] in that column,
    on [rb; ra] it gives [y] and then [y + x]; the two results differ, and
    the output row of [rb] is not the same when [ra] comes before it. *)
Theorem transform_prefix h self X1 X12 a1 a2 out12 h12 :
  transform_is_rowwise →
  h !! X1 = Some (PyArray a1) →
  h !! X12 = Some (PyArray (a1 ++ a2)) →
  a1 ≠ [] →
  transform self X12 h = (Returns out12, h12) →
  (∃ out1 h1 O1 O12,
      transform self X1 h = (Returns out1, h1)
      ∧ h1 !! out1 = Some (PyArray O1)
      ∧ h12 !! out12 = Some (PyArray O12)
      ∧ take (length a1) O12 = O1)
  ∧ (∀ Xab Xba (ra rb : list float64) s (ba bb : list float64)
       s1 a1' s2 a2' c (x y : float64),
       transform_ready h self Xab s [ra; rb] →
       h !! Xba = Some (PyArray [rb; ra]) →
       spline_transform s [ra; rb] = (Returns [ba; bb], s1, a1') →
       spline_transform s [rb; ra] = (Returns [bb; ba], s2, a2') →
       ba !! c = Some x →
       bb !! c = Some y →
       x ≠ y →
       fadd x y ≠ y →
       ∃ oab hab Oab oba hba Oba,
         transform self Xab h = (Returns oab, hab)
         ∧ hab !! oab = Some (PyArray Oab)
         ∧ transform self Xba h = (Returns oba, hba)
         ∧ hba !! oba = Some (PyArray Oba)
         ∧ item Oab 0 c = Some x
         ∧ item Oab 1 c = Some (fadd x y)
         ∧ item Oba 0 c = Some y
         ∧ item Oba 1 c = Some (fadd y x)
         ∧ Oab ≠ Oba
         ∧ item Oab 1 c ≠ item Oba 0 c).
Proof.
  intros Hrow HX1 HX12 Hne Hrun12. split.
  - destruct (transform_returns_inv _ _ _ _ _ Hrun12)
      as (s & a & B & s' & a' & Hready & Hcall & Hout12).
    destruct Hready as (e & n & m & Hself & Hs & HX & Hshape & Hm).
    rewrite HX12 in HX. injection HX as <-.
    destruct (Hrow _ _ _ _ _ _ Hne Hcall)
      as (B1 & B2 & s1 & a1' & -> & Hlen & Hcall1).
    assert (transform_ready h self X1 s a1) as Hready1.
    { exists e, (length a1), m. split_and!; try done.
      by apply (shape_app_l a1 a2 n m). }
    destruct (transform_ready_returns _ _ _ _ _ _ _ _ Hready1 Hcall1)
      as (out1 & h1 & Hrun1 & Hout1).
    exists out1, h1, (cumsum B1 0), (cumsum (B1 ++ B2) 0).
    split_and!; try done.
    rewrite <- Hlen. apply cumsum_prefix.
    intros ->. destruct a1; [done|]. simpl in Hlen. lia.
  - intros Xab Xba ra rb s ba bb s1 a1' s2 a2' c x y
      Hready HXba Hcab Hcba Hx Hy Hxy Habsorb.
    assert (transform_ready h self Xba s [rb; ra]) as Hready'.
    { destruct Hready as (e & n & m & Hself & Hs & HXab & Hshape & Hm).
      exists e, n, m. split_and!; try done.
      simpl in *. destruct (Nat.eqb_spec (length rb) (length ra)) as [Heq|];
        simpl in Hshape; [|done].
      rewrite <- Heq, Nat.eqb_refl. simpl. by rewrite Heq. }
    destruct (transform_ready_returns _ _ _ _ _ _ _ _ Hready Hcab)
      as (oab & hab & Hrunab & Houtab).
    destruct (transform_ready_returns _ _ _ _ _ _ _ _ Hready' Hcba)
      as (oba & hba & Hrunba & Houtba).
    exists oab, hab, (cumsum [ba; bb] 0), oba, hba, (cumsum [bb; ba] 0).
    assert (item (cumsum [ba; bb] 0) 1 c = Some (fadd x y)) as H1.
    { unfold item. simpl. apply row_add_lookup. eauto. }
    assert (item (cumsum [bb; ba] 0) 0 c = Some y) as H2 by done.
    split_and!; try done.
    + unfold item. simpl. apply row_add_lookup. eauto.
    + simpl. intros [= Heq _]. rewrite Heq in Hx. congruence.
    + rewrite H1, H2. congruence.
Qed.

(** ** C5 *)

(** C5. With a collaborator that checks the column count: after a [fit]
    that returned on an array with [m0] columns, [transform] on an array
    that does not have [m0] columns (or has no shape at all) raises. *)
Theorem transform_rejects_other_column_count h self X0 y h1 a0 n0 m0 X a :
  transform_checks_n_features →
  h !! X0 = Some (PyArray a0) →
  shape a0 = Some (n0, m0) →
  fit self X0 y h = (Returns self, h1) →
  h1 !! X = Some (PyArray a) →
  (∀ n, shape a ≠ Some (n, m0)) →
  ∃ ex h2, transform self X h1 = (Raises ex, h2).
Proof.
  intros Hcheck HX0 Hshape0 Hfit HX Hcols.
  destruct (fit_returns_inv _ _ _ _ _ _ _ HX0 Hfit)
    as (_ & e & n0' & m0' & s & a0' & Hself & Hshape0' & Hm0 & Hcall0 & ->).
  destruct (transform_cases (after_call h self (fresh (dom h)) e s a0') self X)
    as [[ex Hex]|(e1 & s1 & a1 & n & m & Hself1 & Hs1 & HX1 & Hshape & Hm)].
  { eauto. }
  rewrite after_call_lookup_self in Hself1. injection Hself1 as <-.
  simpl in Hs1. injection Hs1 as <-.
  rewrite HX in HX1. injection HX1 as <-.
  assert (m ≠ m0) as Hmm by (intros ->; by apply (Hcols n)).
  destruct (Hcheck _ _ _ _ _ _ _ _ _ _ _ Hcall0 Hshape0 Hshape Hmm)
    as (ex & s' & a' & Hcall).
  rewrite (transform_run _ self X (with_spline_transformer_ e s) s a n m
             (Raises ex) s' a'); try done; [eauto|].
  apply after_call_lookup_self.
Qed.

(** ** C7 *)

(** C7. Whatever its outcome, [fit] leaves the array [X] as it was, and
    every other object that is not the instance; when it returns, it
    returns [self]; the instance keeps its three parameters; and when the
    collaborator's [fit] returns on the copy, [fit] returns and the
    instance holds the fitted collaborator. *)
Theorem fit_leaves_X_unchanged h self X y a r h' :
  h !! X = Some (PyArray a) →
  fit self X y h = (r, h') →
  h' !! X = Some (PyArray a)
  ∧ (∀ out, r = Returns out → out = self)
  ∧ (∀ l, l ≠ self → is_Some (h !! l) → h' !! l = h !! l)
  ∧ (∀ e, h !! self = Some (PyEstimator e) →
       ∃ e', h' !! self = Some (PyEstimator e')
             ∧ n_knots e' = n_knots e ∧ degree e' = degree e
             ∧ knots e' = knots e)
  ∧ (∀ e n m s a',
       h !! self = Some (PyEstimator e) →
       shape a = Some (n, m) → m ≠ 0 →
       spline_fit (SplineTransformer (n_knots e) (degree e) (knots e)) a
       = (Returns (), s, a') →
       r = Returns self
       ∧ h' !! self = Some (PyEstimator (with_spline_transformer_ e s))).
Proof.
  intros HX Hfit.
  assert (h' = h ∧ (∃ ex, r = Raises ex)
                   ∧ (shape a = None ∨ ∃ n, shape a = Some (n, 0))
          ∨ ∃ n m, shape a = Some (n, m) ∧ m ≠ 0) as [(-> & [ex ->] & Hbad)|Hok].
  { destruct (shape a) as [[n m]|] eqn:Hshape; cycle 1.
    { left. destruct (check_array_invalid h X a true false HX) as [msg Hca]; [eauto|].
      unfold fit in Hfit. rewrite bind_run, Hca in Hfit.
      injection Hfit as <- <-. split_and!; eauto. }
    destruct (decide (m = 0)) as [->|Hm]; [|by eauto].
    left. destruct (check_array_invalid h X a true false HX) as [msg Hca]; [eauto|].
    unfold fit in Hfit. rewrite bind_run, Hca in Hfit.
    injection Hfit as <- <-. split_and!; eauto. }
  { split_and!; try done.
    - intros e He. by exists e.
    - intros e n m s a' _ Hshape Hm _. destruct Hbad as [Hbad|[n' Hbad]]; congruence. }
  destruct Hok as (n & m & Hshape & Hm).
  assert (fresh (dom h) ≠ X) as HlX by (by apply (fresh_ne h X (PyArray a))).
  destruct (h !! self) as [o|] eqn:Hself; cycle 1.
  { (* no object at [self] *)
    unfold fit in Hfit.
    rewrite bind_run, (check_array_run _ _ _ _ _ true HX Hshape Hm) in Hfit.
    unfold load_estimator in Hfit. rewrite bind_run in Hfit.
    assert (∃ ex, (r, h') = (Raises ex, <[fresh (dom h) := PyArray a]> h))
      as [ex [= -> ->]].
    { destruct (decide (fresh (dom h) = self)) as [Heq|Hne].
      - rewrite Heq, lookup_insert_eq in Hfit. rewrite Heq. eauto.
      - rewrite lookup_insert_ne, Hself in Hfit by done. eauto. }
    split_and!; try done.
    - by rewrite lookup_insert_ne.
    - intros l _ Hl. rewrite lookup_insert_ne; [done|].
      intros <-. rewrite fresh_lookup in Hl. by destruct Hl. }
  assert (fresh (dom h) ≠ self) as Hlself by (by apply (fresh_ne h self o)).
  destruct o as [a0|e].
  { (* [self] is not an instance *)
    unfold fit in Hfit.
    rewrite bind_run, (check_array_run _ _ _ _ _ true HX Hshape Hm) in Hfit.
    unfold load_estimator in Hfit.
    rewrite bind_run, lookup_insert_ne, Hself in Hfit by done.
    injection Hfit as <- <-.
    split_and!; try done.
    - by rewrite lookup_insert_ne.
    - intros l _ Hl. rewrite lookup_insert_ne; [done|].
      intros <-. rewrite fresh_lookup in Hl. by destruct Hl. }
  destruct (spline_fit (SplineTransformer (n_knots e) (degree e) (knots e)) a)
    as [[r0 s] a'] eqn:Hcall.
  rewrite (fit_run _ _ _ _ _ _ _ _ _ _ _ Hself HX Hshape Hm Hcall) in Hfit.
  injection Hfit as <- <-.
  assert (X ≠ self) as Hne by (intros ->; congruence).
  split_and!.
  - by rewrite after_call_lookup_other.
  - intros out Hout. destruct r0; by simplify_eq.
  - intros l Hl1 Hl. rewrite after_call_lookup_other; [done..|].
    intros ->. rewrite fresh_lookup in Hl. by destruct Hl.
  - intros e0 [= <-]. eexists. split; [apply after_call_lookup_self|done].
  - intros e0 n1 m1 s1 a1 [= <-] _ _ Hcall1.
    rewrite Hcall in Hcall1. injection Hcall1 as -> -> ->.
    split; [done|]. apply after_call_lookup_self.
Qed.

(** ** C2, as amended *)


(** ** C3, as amended *)

(** C3 (amended). With the default parameters and a collaborator that
    returns [n_knots + degree - 1] columns per input column: fitting on a
    one-column array of 100 rows and transforming that same array, when the
    collaborator returns on it, gives a matrix of exactly 100 rows and
    exactly 5 columns. *)
Theorem default_fit_transform_shape h self X y a s a0' B s' a' :
  transform_n_features_out →
  h !! self
  = Some (PyEstimator (__init__ default_n_knots default_degree default_knots)) →
  h !! X = Some (PyArray a) →
  shape a = Some (100, 1) →
  spline_fit (SplineTransformer 3 3 "uniform") a = (Returns (), s, a0') →
  spline_transform s a = (Returns B, s', a') →
  ∃ h1 out h2 O,
    fit self X y h = (Returns self, h1)
    ∧ transform self X h1 = (Returns out, h2)
    ∧ h2 !! out = Some (PyArray O)
    ∧ shape O = Some (100, 5).
Proof.
  intros Hout Hself HX Hshape Hfit Hcall.
  set (e := __init__ default_n_knots default_degree default_knots) in *.
  assert (X ≠ self) as Hne by (intros ->; congruence).
  assert (fresh (dom h) ≠ X) as HlX by (by apply (fresh_ne h X (PyArray a))).
  pose proof (fit_run h self X y e a 100 1 (Returns ()) s a0'
                Hself HX Hshape ltac:(done) Hfit) as Hfit_run.
  set (h1 := after_call h self (fresh (dom h)) e s a0') in *.
  assert (transform_ready h1 self X s a) as Hready.
  { exists (with_spline_transformer_ e s), 100, 1. split_and!; try done.
    - apply after_call_lookup_self.
    - unfold h1. by rewrite after_call_lookup_other. }
  destruct (transform_ready_returns _ _ _ _ _ _ _ _ Hready Hcall)
    as (out & h2 & Hrun & HO).
  exists h1, out, h2, (cumsum B 0). split_and!; try done.
  apply shape_cumsum.
  apply (Hout 3%Z 3%Z "uniform" a s a0' 100 1 a 100 1 B s' a'); done.
Qed.

End Properties.

(** * The reference instances meet what the statements ask *)

Section ShapeFacts.
Context {F : Float64}.

Lemma shape_rows (a : ndarray) (n m : nat) :
  shape a = Some (n, m) →
  n = length a ∧ a ≠ [] ∧ Forall (λ r : list float64, length r = m) a.
Proof.
  destruct a as [|r rows]; simpl; [done|].
  destruct (forallb _ rows) eqn:Hrows; [|done]. intros [= <- <-].
  split_and!; [done..|]. constructor; [done|].
  apply Forall_forall. intros r' Hr'.
  rewrite forallb_forall in Hrows. apply Nat.eqb_eq, Hrows.
  by apply list_elem_of_In.
Qed.

Lemma shape_map (g : list float64 → list float64) (a : ndarray) (n m k : nat) :
  shape a = Some (n, m) →
  (∀ r, length r = m → length (g r) = k) →
  shape (map g a) = Some (n, k).
Proof.
  intros Hshape Hg.
  destruct (shape_rows a n m Hshape) as (-> & Hne & Hall).
  destruct a as [|r rows]; [done|]. simpl.
  apply Forall_cons in Hall as [Hr Hrows].
  rewrite (Hg r Hr).
  assert (forallb (λ r', Nat.eqb (length r') k) (map g rows) = true) as ->.
  { apply forallb_forall. intros r' Hr'.
    apply in_map_iff in Hr' as (r0 & <- & Hr0).
    apply Nat.eqb_eq, Hg.
    rewrite Forall_forall in Hrows. by apply Hrows, list_elem_of_In. }
  by rewrite length_map.
Qed.

End ShapeFacts.

Section ReferenceFacts.
Import Exact UniformBSpline.

Lemma float64_exact_order : Float64Order float64_exact.
Proof.
  split.
  - intros [p| | |] [q| | |] [r| | |]; cbn; try done.
    rewrite !Qle_bool_iff. apply Qle_trans.
  - intros [p| | |] [q| | |]; cbn; try done.
    rewrite !Qle_bool_iff, Qred_correct. intros Hp Hq.
    rewrite <- (Qplus_0_r p) at 1.
    apply Qplus_le_compat; [apply Qle_refl|done].
Qed.

Lemma uniform_spline_fit (s : state) (a : ndarray) :
  spline_fit s a = (do_fit s a, a).
Proof. reflexivity. Qed.

Lemma uniform_spline_transform (s : state) (a : ndarray) :
  spline_transform s a = (do_transform s a, s, a).
Proof. reflexivity. Qed.

Lemma uniform_transform_is_pure : transform_is_pure.
Proof. intros s a r s' a' Hcall. cbn in Hcall. by injection Hcall as _ <- <-. Qed.

Lemma ranges_length (a : ndarray) (n m : nat) :
  shape a = Some (n, m) → length (ranges a) = m.
Proof.
  intros Hshape. destruct (shape_rows a n m Hshape) as (_ & _ & Hall).
  destruct a as [|r rows]; [done|]. simpl.
  apply Forall_cons in Hall as [Hr Hrows].
  assert (length (map (λ x, (value x, value x)) r) = m) as Hacc
    by (by rewrite length_map).
  clear Hshape. revert Hacc. generalize (map (λ x, (value x, value x)) r).
  induction Hrows as [|r' rows' Hr' Hrows' IH]; intros acc Hacc; simpl; [done|].
  apply IH. rewrite length_zip_with. cbn in *. lia.
Qed.

Lemma do_fit_returns_inv nk d k (a : ndarray) s :
  do_fit (init nk d k) a = (Returns (), s) →
  (2 ≤ nk)%Z ∧ (0 ≤ d)%Z
  ∧ s = {| st_n_knots := nk; st_degree := d; st_knots := k;
           st_ranges := Some (ranges a) |}.
Proof.
  unfold do_fit. simpl.
  destruct (Z.leb_spec 2 nk); simpl; [|done].
  destruct (Z.leb_spec 0 d); simpl; [|done].
  destruct (String.eqb k "uniform"); simpl; [|done].
  destruct (shape a) as [[rows m]|]; [|done].
  destruct (all_finite a); simpl; [|done].
  destruct (negb _); [done|].
  by intros [= <-].
Qed.

Lemma uniform_transform_checks_n_features : transform_checks_n_features.
Proof.
  intros nk d k a0 s a0' n0 m0 a n m Hfit Hshape0 Hshape Hm.
  rewrite uniform_spline_fit in Hfit. injection Hfit as Hfit _.
  apply do_fit_returns_inv in Hfit as (_ & _ & ->).
  rewrite uniform_spline_transform. unfold do_transform. simpl. rewrite Hshape.
  rewrite (ranges_length a0 n0 m0 Hshape0).
  destruct (all_finite a); simpl; [|by do 3 eexists].
  destruct (Nat.eqb_spec m m0); [done|]. simpl. by do 3 eexists.
Qed.

Lemma length_basis n d lohi x : length (basis n d lohi x) = n + d - 1.
Proof. destruct lohi. unfold basis. by rewrite length_map, length_seq. Qed.

Lemma length_basis_row n d (rs : list (Q * Q)) (r : list xrat) :
  length r = length rs →
  length (basis_row n d rs r) = length rs * (n + d - 1).
Proof.
  unfold basis_row. revert r.
  induction rs as [|lohi rs IH]; intros [|x r] Hlen; simpl in *; try done.
  rewrite length_app, length_basis, IH by lia. done.
Qed.

Lemma do_transform_returns_inv s (a B : ndarray) :
  do_transform s a = Returns B →
  ∃ rs n, st_ranges s = Some rs
          ∧ shape a = Some (n, length rs)
          ∧ all_finite a = true
          ∧ B = map (basis_row (Z.to_nat (st_n_knots s))
                               (Z.to_nat (st_degree s)) rs) a.
Proof.
  unfold do_transform.
  destruct (st_ranges s) as [rs|]; [|done].
  destruct (shape a) as [[n m]|]; [|done].
  destruct (all_finite a); simpl; [|done].
  destruct (Nat.eqb_spec m (length rs)) as [->|]; simpl; [|done].
  intros [= <-]. by exists rs, n.
Qed.

Lemma uniform_transform_n_features_out : transform_n_features_out.
Proof.
  intros nk d k a0 s a0' n0 m0 a n m B s' a' Hfit Hshape0 Hshape Hcall.
  rewrite uniform_spline_fit in Hfit. injection Hfit as Hfit _.
  apply do_fit_returns_inv in Hfit as (Hnk & Hd & ->).
  rewrite uniform_spline_transform in Hcall. injection Hcall as Hcall _ _.
  apply do_transform_returns_inv in Hcall as (rs & n' & Hrs & Hshape' & _ & ->).
  simpl in *. injection Hrs as <-.
  rewrite Hshape in Hshape'. injection Hshape' as <- ->.
  rewrite (ranges_length a0 n0 m0 Hshape0) in *.
  apply (shape_map _ a n m0); [done|].
  intros r Hr. rewrite length_basis_row.
  - rewrite (ranges_length a0 n0 m0 Hshape0). f_equal. lia.
  - by rewrite (ranges_length a0 n0 m0 Hshape0).
Qed.

Lemma uniform_transform_is_rowwise : transform_is_rowwise.
Proof.
  intros s a1 a2 B s' a' Hne Hcall.
  rewrite uniform_spline_transform in Hcall. injection Hcall as Hcall _ _.
  apply do_transform_returns_inv in Hcall as (rs & n & Hrs & Hshape & Hfin & ->).
  assert (all_finite a1 = true) as Hfin1.
  { unfold all_finite in *. rewrite forallb_app in Hfin.
    by apply andb_prop in Hfin as [? _]. }
  pose proof (shape_app_l a1 a2 n (length rs) Hne Hshape) as Hshape1.
  rewrite map_app.
  do 2 eexists. exists s, a1. split_and!; [done|by rewrite length_map|].
  rewrite uniform_spline_transform. unfold do_transform.
  rewrite Hrs, Hshape1, Hfin1. simpl.
  by rewrite Nat.eqb_refl.
Qed.

End ReferenceFacts.

(** * The reference B-splines are non-negative *)

Section BSplineFacts.
Import Exact UniformBSpline.

Lemma qmin_le_l (a b : Q) : (qmin a b <= a)%Q.
Proof.
  unfold qmin. destruct (Qle_bool a b) eqn:E; [apply Qle_refl|].
  apply Qlt_le_weak, Qnot_le_lt. intros H. apply Qle_bool_iff in H. congruence.
Qed.

Lemma qmin_le_r (a b : Q) : (qmin a b <= b)%Q.
Proof.
  unfold qmin. destruct (Qle_bool a b) eqn:E; [|apply Qle_refl].
  by apply Qle_bool_iff.
Qed.

Lemma qmax_ge_l (a b : Q) : (a <= qmax a b)%Q.
Proof.
  unfold qmax. destruct (Qle_bool a b) eqn:E; [|apply Qle_refl].
  by apply Qle_bool_iff.
Qed.

Lemma qmax_ge_r (a b : Q) : (b <= qmax a b)%Q.
Proof.
  unfold qmax. destruct (Qle_bool a b) eqn:E; [apply Qle_refl|].
  apply Qlt_le_weak, Qnot_le_lt. intros H. apply Qle_bool_iff in H. congruence.
Qed.

(** Constant extrapolation keeps the argument inside the fitted range. *)
Lemma clip_bounds (lo hi x : Q) :
  (lo <= hi)%Q →
  (lo <= qmax lo (qmin hi x))%Q ∧ (qmax lo (qmin hi x) <= hi)%Q.
Proof.
  intros Hlohi. split; [apply qmax_ge_l|].
  unfold qmax. destruct (Qle_bool lo (qmin hi x)); [apply qmin_le_l|done].
Qed.

(** Every recorded range has its minimum below its maximum. *)
Lemma ranges_ordered (a : list (list xrat)) :
  Forall (λ lohi : Q * Q, (lohi.1 <= lohi.2)%Q) (ranges a).
Proof.
  destruct a as [|r rows]; simpl; [constructor|].
  assert (Forall (λ lohi : Q * Q, (lohi.1 <= lohi.2)%Q)
            (map (λ x, (value x, value x)) r)) as Hacc.
  { apply Forall_forall. intros lohi Hin.
    apply list_elem_of_In, in_map_iff in Hin as (x & <- & _). apply Qle_refl. }
  revert Hacc. generalize (map (λ x, (value x, value x)) r).
  induction rows as [|r' rows IH]; intros acc Hacc; simpl; [done|].
  apply IH.
  apply (Forall_zip_with_fst _ (λ lohi : Q * Q, (lohi.1 <= lohi.2)%Q)); [done|].
  apply Forall_forall. intros x _ [lo hi] Hlohi. simpl in *.
  eapply Qle_trans; [apply qmin_le_l|].
  eapply Qle_trans; [exact Hlohi|]. apply qmax_ge_l.
Qed.

Lemma step_nonneg (n : nat) (lo hi : Q) :
  (2 ≤ n)%nat → (lo <= hi)%Q → (0 <= (hi - lo) / inject_Z (Z.of_nat n - 1))%Q.
Proof.
  intros Hn Hlohi. unfold Qdiv. apply Qmult_le_0_compat; [lra|].
  apply Qinv_le_0_compat.
  change 0%Q with (inject_Z 0). rewrite <- Zle_Qle. lia.
Qed.

(** The knots are sorted. *)
Lemma knot_mono (n d : nat) (lo hi : Q) (j j' : nat) :
  (2 ≤ n)%nat → (lo <= hi)%Q → (j ≤ j')%nat →
  (knot n d lo hi j <= knot n d lo hi j')%Q.
Proof.
  intros Hn Hlohi Hj. unfold knot.
  pose proof (step_nonneg n lo hi Hn Hlohi) as Hstep.
  assert (inject_Z (Z.of_nat j - Z.of_nat d) <= inject_Z (Z.of_nat j' - Z.of_nat d))%Q
    as Hinj by (rewrite <- Zle_Qle; lia).
  nra.
Qed.

Lemma knot_first (n d : nat) (lo hi : Q) : (knot n d lo hi d == lo)%Q.
Proof.
  unfold knot. rewrite Z.sub_diag. change (inject_Z 0) with 0%Q. lra.
Qed.

Lemma knot_last (n d : nat) (lo hi : Q) :
  (2 ≤ n)%nat → (knot n d lo hi (n + d - 1)%nat == hi)%Q.
Proof.
  intros Hn. unfold knot.
  replace (Z.of_nat (n + d - 1) - Z.of_nat d)%Z with (Z.of_nat n - 1)%Z by lia.
  assert (¬ inject_Z (Z.of_nat n - 1) == 0)%Q as Hne.
  { change 0%Q with (inject_Z 0). rewrite inject_Z_injective. lia. }
  field. exact Hne.
Qed.

(** Scanning [s, s+1, ..., s+m-1] for the last index that satisfies [P]. *)
Lemma scan_last (P : nat → bool) (m : nat) :
  ∀ s init : nat,
    init < s →
    let r := foldl (λ l j, if P j then j else l) init (seq s m) in
    (init ≤ r)%nat
    ∧ r < s + m
    ∧ (r = init ∨ P r = true)
    ∧ (∀ j, r < j → (s ≤ j)%nat → j < s + m → P j = false).
Proof.
  induction m as [|m IH]; intros s init Hinit; simpl.
  - split_and!; [lia|lia|by left|]. intros j _ ? ?. lia.
  - destruct (P s) eqn:HPs.
    + destruct (IH (S s) s ltac:(lia)) as (Hle & Hlt & Hr & Hafter).
      split_and!; [lia|lia| |].
      * destruct Hr as [->|Hr]; [by right|by right].
      * intros j Hj Hsj Hjm. apply Hafter; lia.
    + destruct (IH (S s) init ltac:(lia)) as (Hle & Hlt & Hr & Hafter).
      split_and!; [lia|lia|done|].
      intros j Hj Hsj Hjm.
      destruct (decide (j = s)) as [->|Hne]; [done|].
      apply Hafter; lia.
Qed.

(** The interval index brackets the argument between two consecutive
    knots. *)
Lemma interval_brackets (n d : nat) (lo hi x : Q) :
  (2 ≤ n)%nat → (lo <= x)%Q → (x <= hi)%Q →
  let l := interval n d lo hi x in
  (knot n d lo hi l <= x)%Q ∧ (x <= knot n d lo hi (l + 1)%nat)%Q.
Proof.
  intros Hn Hlo Hhi. unfold interval.
  destruct (scan_last (λ j, Qle_bool (knot n d lo hi j) x) (n - 2) (d + 1) d
              ltac:(lia)) as (Hle & Hlt & Hr & Hafter).
  set (l := foldl _ d (seq (d + 1) (n - 2))) in *. simpl. split.
  - destruct Hr as [->|Hr].
    + rewrite knot_first. done.
    + by apply Qle_bool_iff.
  - destruct (decide (l + 1 < d + 1 + (n - 2))) as [Hin|Hout].
    + apply Qlt_le_weak, Qnot_le_lt. intros Hk.
      apply Qle_bool_iff in Hk. rewrite Hafter in Hk; [done|lia..].
    + replace (l + 1) with (n + d - 1) by lia.
      rewrite knot_last by done. done.
Qed.

(** Cox-de Boor on sorted knots, at an argument between knots [l] and
    [l + 1]: every B-spline is non-negative, and B-spline [i] of degree [k]
    vanishes unless [i <= l <= i + k]. *)
Lemma bspline_nonneg (t : nat → Q) (l : nat) (x : Q) :
  (∀ j j', (j ≤ j')%nat → (t j <= t j')%Q) →
  (t l <= x)%Q → (x <= t (l + 1)%nat)%Q →
  ∀ k i,
    (0 <= bspline t l x k i)%Q
    ∧ (¬ (bspline t l x k i == 0)%Q → (i ≤ l ∧ l ≤ i + k)%nat).
Proof.
  intros Hmono Hl Hl1.
  assert (∀ a b : Q, (0 <= a → 0 <= b → 0 <= a / b)%Q) as Hdiv.
  { intros a b Ha Hb. unfold Qdiv. apply Qmult_le_0_compat; [done|].
    by apply Qinv_le_0_compat. }
  induction k as [|k IH]; intros i; simpl.
  - destruct (Nat.eqb_spec i l) as [->|Hne].
    + split; [lra|]. intros _. lia.
    + split; [lra|]. intros H. destruct H. reflexivity.
  - destruct (IH i) as [H0 Hs0]. destruct (IH (i + 1)) as [H1 Hs1].
    set (b0 := bspline t l x k i) in *.
    set (b1 := bspline t l x k (i + 1)) in *.
    assert (0 <= (x - t i) / (t (i + S k)%nat - t i) * b0)%Q as Hterm0.
    { destruct (Qeq_dec b0 0) as [Hz|Hnz].
      - rewrite Hz. lra.
      - destruct (Hs0 Hnz) as [Hil Hlik].
        apply Qmult_le_0_compat; [|done]. apply Hdiv.
        + pose proof (Hmono i l Hil). lra.
        + pose proof (Hmono i (i + S k) ltac:(lia)). lra. }
    assert (0 <= (t (i + S k + 1)%nat - x) / (t (i + S k + 1)%nat - t (i + 1)%nat) * b1)%Q
      as Hterm1.
    { destruct (Qeq_dec b1 0) as [Hz|Hnz].
      - rewrite Hz. lra.
      - destruct (Hs1 Hnz) as [Hil Hlik].
        apply Qmult_le_0_compat; [|done]. apply Hdiv.
        + pose proof (Hmono (l + 1) (i + S k + 1) ltac:(lia)). lra.
        + pose proof (Hmono (i + 1) (i + S k + 1) ltac:(lia)). lra. }
    split; [lra|].
    intros Hnz.
    destruct (Qeq_dec b0 0) as [Hz0|Hnz0]; [|destruct (Hs0 Hnz0); lia].
    destruct (Qeq_dec b1 0) as [Hz1|Hnz1]; [|destruct (Hs1 Hnz1); lia].
    destruct Hnz. rewrite Hz0, Hz1. lra.
Qed.

Lemma basis_nonneg (n d : nat) (lo hi x : Q) :
  (2 ≤ n)%nat → (lo <= hi)%Q → Forall nonneg (basis n d (lo, hi) x).
Proof.
  intros Hn Hlohi. unfold basis.
  destruct (clip_bounds lo hi x Hlohi) as [Hlo Hhi].
  set (x' := qmax lo (qmin hi x)) in *.
  destruct (interval_brackets n d lo hi x' Hn Hlo Hhi) as [Hl Hl1].
  apply Forall_forall. intros v Hv.
  apply list_elem_of_In, in_map_iff in Hv as (i & <- & _).
  unfold nonneg. cbn. apply Qle_bool_iff. rewrite Qred_correct.
  apply bspline_nonneg; [|done..].
  intros j j' Hj. by apply knot_mono.
Qed.

Lemma basis_row_nonneg (n d : nat) (rs : list (Q * Q)) (r : list xrat) :
  (2 ≤ n)%nat →
  Forall (λ lohi : Q * Q, (lohi.1 <= lohi.2)%Q) rs →
  Forall nonneg (basis_row n d rs r).
Proof.
  intros Hn Hrs. unfold basis_row. apply Forall_concat.
  apply (Forall_zip_with_fst _ (λ lohi : Q * Q, (lohi.1 <= lohi.2)%Q)); [done|].
  apply Forall_forall. intros x _ [lo hi] Hlohi. by apply basis_nonneg.
Qed.

(** After a [fit] that returned, the reference collaborator's [transform]
    returns only non-negative basis values. *)
Lemma uniform_transform_nonneg nk d k (a0 : ndarray) s a0' (a B : ndarray) s' a' :
  spline_fit (SplineTransformer nk d k) a0 = (Returns (), s, a0') →
  spline_transform s a = (Returns B, s', a') →
  Forall (Forall nonneg) B.
Proof.
  intros Hfit Hcall.
  rewrite uniform_spline_fit in Hfit. injection Hfit as Hfit _.
  apply do_fit_returns_inv in Hfit as (Hnk & Hd & ->).
  rewrite uniform_spline_transform in Hcall. injection Hcall as Hcall _ _.
  apply do_transform_returns_inv in Hcall as (rs & n & Hrs & _ & _ & ->).
  simpl in *. injection Hrs as <-.
  apply Forall_forall. intros row Hrow.
  apply list_elem_of_In, in_map_iff in Hrow as (r & <- & _).
  apply basis_row_nonneg; [lia|apply ranges_ordered].
Qed.

End BSplineFacts.

(** * The statements on concrete inputs *)

Section Concrete.
Import Exact UniformBSpline Demo.

(** C1 on the fitted default instance and the 100 evenly spaced values. *)
Lemma transform_columns_nondecreasing_witness :
  ∃ out h' O,
    transform self1 lX100 store1 = (Returns out, h')
    ∧ h' !! out = Some (PyArray O)
    ∧ nondecreasing O.
Proof.
  apply (transform_columns_nondecreasing float64_exact_order
           store1 self1 lX100 fitted1 X100 (basis_of X100) fitted1 X100).
  - exists estimator1, 100, 1. split_and!; [reflexivity..|lia].
  - reflexivity.
  - apply (uniform_transform_nonneg 3 3 "uniform" X100 fitted1 X100
             X100 (basis_of X100) fitted1 X100); reflexivity.
Defined.

(** C8 on the fitted default instance and the 100 evenly spaced values. *)
Lemma transform_last_row_is_column_total_witness :
  ∃ out h' O,
    transform self1 lX100 store1 = (Returns out, h')
    ∧ h' !! out = Some (PyArray O)
    ∧ ∀ c col, column c (basis_of X100) = Some col →
               last O ≫= (.!! c) = sum_left col.
Proof.
  apply (transform_last_row_is_column_total
           store1 self1 lX100 fitted1 X100 (basis_of X100) fitted1 X100).
  - exists estimator1, 100, 1. split_and!; [reflexivity..|lia].
  - reflexivity.
Defined.

(** C6: transforming the 100 values twice after each other. *)
Lemma transform_twice_same_output_witness :
  ∃ out2 h2 O,
    transform self1 lX100 (transform self1 lX100 store1).2 = (Returns out2, h2)
    ∧ (transform self1 lX100 store1).2 !! 12%positive = Some (PyArray O)
    ∧ h2 !! out2 = Some (PyArray O)
    ∧ h2 !! 12%positive = Some (PyArray O).
Proof.
  apply (transform_twice_same_output store1 self1 lX100 12%positive
           (transform self1 lX100 store1).2 uniform_transform_is_pure).
  reflexivity.
Defined.

(** C10: the store around one [transform] of the 100 values. *)
Lemma transform_leaves_store_unchanged_witness :
  (∀ l, is_Some (store1 !! l) →
        (transform self1 lX100 store1).2 !! l = store1 !! l)
  ∧ (∀ out, Returns 12%positive = Returns out →
       store1 !! out = None
       ∧ ∃ O, (transform self1 lX100 store1).2 !! out = Some (PyArray O)).
Proof.
  apply (transform_leaves_store_unchanged store1 self1 lX100
           (Returns 12%positive) (transform self1 lX100 store1).2
           uniform_transform_is_pure).
  reflexivity.
Defined.

(** C9: the first 40 of the 100 values against all of them, and the
    samples 0 and 1 in the two orders, whose first basis values are 1/6 and
    0. *)
Lemma transform_prefix_witness :
  (∃ out1 h1 O1 O12,
      transform self1 lX40 DemoOrder.store2 = (Returns out1, h1)
      ∧ h1 !! out1 = Some (PyArray O1)
      ∧ (transform self1 lX100 DemoOrder.store2).2 !! 23%positive
        = Some (PyArray O12)
      ∧ take (length X40) O12 = O1)
  ∧ (∃ oab hab Oab oba hba Oba,
        transform self1 DemoOrder.lXab DemoOrder.store2 = (Returns oab, hab)
        ∧ hab !! oab = Some (PyArray Oab)
        ∧ transform self1 DemoOrder.lXba DemoOrder.store2 = (Returns oba, hba)
        ∧ hba !! oba = Some (PyArray Oba)
        ∧ item Oab 0 0 = Some (Fin (1 # 6))
        ∧ item Oab 1 0 = Some (fadd (Fin (1 # 6)) (Fin 0))
        ∧ item Oba 0 0 = Some (Fin 0)
        ∧ item Oba 1 0 = Some (fadd (Fin 0) (Fin (1 # 6)))
        ∧ Oab ≠ Oba
        ∧ item Oab 1 0 ≠ item Oba 0 0).
Proof.
  destruct (transform_prefix DemoOrder.store2 self1 lX40 lX100 X40 X60
              23%positive (transform self1 lX100 DemoOrder.store2).2
              uniform_transform_is_rowwise) as [Hprefix Horder];
    [reflexivity|reflexivity|discriminate|reflexivity|].
  split; [exact Hprefix|].
  apply (Horder DemoOrder.lXab DemoOrder.lXba [Fin 0] [Fin 1] fitted1
           DemoOrder.basis_a DemoOrder.basis_b
           fitted1 DemoOrder.Xab fitted1 DemoOrder.Xba
           0 (Fin (1 # 6)) (Fin 0)).
  - exists estimator1, 2, 1. split_and!; [reflexivity..|lia].
  - reflexivity.
  - reflexivity.
  - reflexivity.
  - reflexivity.
  - reflexivity.
  - discriminate.
  - discriminate.
Defined.

(** C5: fitted on one column, [transform] of a two-column array raises. *)
Lemma transform_rejects_other_column_count_witness :
  ∃ ex h2, transform self1 lX2col store1 = (Raises ex, h2).
Proof.
  apply (transform_rejects_other_column_count store0 self1 lX100 None store1
           X100 100 1 lX2col X2col uniform_transform_checks_n_features).
  - reflexivity.
  - reflexivity.
  - reflexivity.
  - reflexivity.
  - intros n. discriminate.
Defined.

(** C7: the store around [fit] on the 100 values. *)
Lemma fit_leaves_X_unchanged_witness :
  store1 !! lX100 = Some (PyArray X100)
  ∧ (∀ l, l ≠ self1 → is_Some (store0 !! l) → store1 !! l = store0 !! l)
  ∧ store1 !! self1 = Some (PyEstimator (with_spline_transformer_ estimator0 fitted1)).
Proof.
  destruct (fit_leaves_X_unchanged store0 self1 lX100 None X100
              (Returns self1) store1) as (HX & _ & Hframe & _ & Hfitted);
    [reflexivity..|].
  split_and!; [done..|].
  apply (Hfitted estimator0 100 1 fitted1 X100); [reflexivity..|lia|reflexivity].
Defined.


(** C3 (amended) on the 100 evenly spaced values. *)
Lemma default_fit_transform_shape_witness :
  ∃ h1 out h2 O,
    fit self1 lX100 None store0 = (Returns self1, h1)
    ∧ transform self1 lX100 h1 = (Returns out, h2)
    ∧ h2 !! out = Some (PyArray O)
    ∧ shape O = Some (100, 5).
Proof.
  apply (default_fit_transform_shape store0 self1 lX100 None X100 fitted1 X100
           (basis_of X100) fitted1 X100 uniform_transform_n_features_out);
    reflexivity.
Defined.


(** C3, counterexample. With the default parameters, fitting on 100 evenly
    spaced values from 0 to 1 and transforming them gives 100 rows and 5
    columns, not 4. *)
Lemma default_fit_transform_shape_counterexample :
  (fit self1 lX100 None store0).1 = Returns self1
  ∧ (transform self1 lX100 (fit self1 lX100 None store0).2).1
    = Returns 12%positive
  ∧ (transform self1 lX100 (fit self1 lX100 None store0).2).2 !! 12%positive
    = Some (PyArray (cumsum (basis_of X100) 0))
  ∧ shape (cumsum (basis_of X100) 0) = Some (100, 5)
  ∧ shape (cumsum (basis_of X100) 0) ≠ Some (100, 4).
Proof.
  assert (shape (cumsum (basis_of X100) 0) = Some (100, 5)) as Hshape
    by (vm_compute; reflexivity).
  split_and!; [reflexivity..|done|].
  rewrite Hshape. discriminate.
Qed.

(** C4. An instance whose only [fit] raised in the collaborator (here: one
    sample, where two are required) has its attribute set to an unfitted
    collaborator, so [check_is_fitted] passes: [transform] on an array
    without rows then raises [ValueError] from the validation step, not
    [NotFittedError]; on a valid array the [NotFittedError] is the
    collaborator's own. Before that [fit], [transform] raises the
    instance's [NotFittedError]. *)
Theorem transform_after_failed_fit :
  transform self2 lXempty store0
  = (Raises (NotFittedError "MonotonicSplineTransformer"), store0)
  ∧ (fit self2 lX1row None store0).1
    = Raises (ValueError "minimum of 2 samples is required")
  ∧ (transform self2 lXempty (fit self2 lX1row None store0).2).1
    = Raises (ValueError "Found array with 0 sample(s) or not 2D")
  ∧ (transform self2 lX100 (fit self2 lX1row None store0).2).1
    = Raises (NotFittedError "SplineTransformer").
Proof. split_and!; reflexivity. Qed.

End Concrete.

(** * Further properties *)

Section RunningSum.
Context {F : Float64}.

(** Each value of the running sum is the value above it plus the entry of
    the array. *)
Lemma cumsum_from_step (c : nat) (rows : ndarray) :
  ∀ (acc : list float64) (i : nat) (x y : float64),
    item (acc :: cumsum_from acc rows) i c = Some x →
    item rows i c = Some y →
    item (cumsum_from acc rows) i c = Some (fadd x y).
Proof.
  unfold item.
  induction rows as [|r rows IH]; intros acc i x y Hx Hy.
  - by destruct i.
  - destruct i as [|i]; simpl in *.
    + apply row_add_lookup. eauto.
    + by apply (IH (row_add acc r) i x y).
Qed.

Lemma cumsum_step (B : ndarray) (i c : nat) (x y : float64) :
  item (cumsum B 0) i c = Some x →
  item B (S i) c = Some y →
  item (cumsum B 0) (S i) c = Some (fadd x y).
Proof.
  destruct B as [|r rows]; [by destruct i|]. simpl.
  intros Hx Hy. by apply (cumsum_from_step c rows r i x y).
Qed.

Lemma cumsum_from_nonneg (FO : Float64Order F) (rows : ndarray) :
  ∀ acc : list float64,
    Forall nonneg acc →
    Forall (Forall nonneg) rows →
    Forall (Forall nonneg) (cumsum_from acc rows).
Proof.
  induction rows as [|r rows IH]; intros acc Hacc Hrows; simpl; [constructor|].
  apply Forall_cons in Hrows as [Hr Hrows].
  pose proof (row_add_nonneg acc r Hacc Hr) as Hacc'.
  constructor; [done|]. by apply IH.
Qed.

Lemma cumsum_nonneg (FO : Float64Order F) (B : ndarray) :
  Forall (Forall nonneg) B → Forall (Forall nonneg) (cumsum B 0).
Proof.
  destruct B as [|r rows]; simpl; [done|]. intros HB.
  apply Forall_cons in HB as [Hr Hrows].
  constructor; [done|]. by apply cumsum_from_nonneg.
Qed.

End RunningSum.

Section MoreProperties.
Context {F : Float64} {ST : SplineTransformerAPI F}.

Implicit Types (h : gmap loc pyobj) (e : MonotonicSplineTransformer).
Implicit Types (a B : ndarray) (s : spline_obj).

Lemma fit_raises_on_invalid h self X y a :
  h !! X = Some (PyArray a) →
  (shape a = None ∨ ∃ n, shape a = Some (n, 0)) →
  ∃ msg, fit self X y h = (Raises (ValueError msg), h).
Proof.
  intros HX Hbad.
  destruct (check_array_invalid h X a true false HX Hbad) as [msg Hca].
  exists msg. unfold fit. by rewrite bind_run, Hca.
Qed.

(** What [fit] does on an instance and an array: it stops at the
    validation step, or it runs the collaborator on the copy. *)
Lemma fit_cases h self X y e a :
  h !! self = Some (PyEstimator e) →
  h !! X = Some (PyArray a) →
  (∃ msg, fit self X y h = (Raises (ValueError msg), h)
          ∧ (shape a = None ∨ ∃ n, shape a = Some (n, 0)))
  ∨ (∃ n m r s a',
        shape a = Some (n, m) ∧ m ≠ 0
        ∧ spline_fit (SplineTransformer (n_knots e) (degree e) (knots e)) a
          = (r, s, a')
        ∧ fit self X y h
          = (match r with Returns _ => Returns self | Raises ex => Raises ex end,
             after_call h self (fresh (dom h)) e s a')).
Proof.
  intros Hself HX.
  destruct (shape a) as [[n m]|] eqn:Hshape; cycle 1.
  { left. destruct (fit_raises_on_invalid h self X y a HX) as [msg Hfit]; eauto. }
  destruct (decide (m = 0)) as [->|Hm].
  { left. destruct (fit_raises_on_invalid h self X y a HX) as [msg Hfit]; eauto. }
  right.
  destruct (spline_fit (SplineTransformer (n_knots e) (degree e) (knots e)) a)
    as [[r s] a'] eqn:Hcall.
  exists n, m, r, s, a'. split_and!; [done..|].
  by apply (fit_run h self X y e a n m r s a').
Qed.

(** X1. On an instance that was just constructed, whatever the parameters,
    [transform] raises [NotFittedError] for every [X], before [X] is looked
    at, and leaves the store as it was. *)
Theorem transform_on_new_instance h nk d k X :
  ∃ self h1,
    new_MonotonicSplineTransformer nk d k h = (Returns self, h1)
    ∧ h !! self = None
    ∧ h1 !! self = Some (PyEstimator (__init__ nk d k))
    ∧ transform self X h1
      = (Raises (NotFittedError "MonotonicSplineTransformer"), h1).
Proof.
  exists (fresh (dom h)), (<[fresh (dom h) := PyEstimator (__init__ nk d k)]> h).
  split_and!.
  - done.
  - apply fresh_lookup.
  - by rewrite lookup_insert_eq.
  - apply (transform_attribute_absent _ _ _ (__init__ nk d k)); [|done].
    by rewrite lookup_insert_eq.
Qed.

(** X2. With a collaborator that returns [n_knots + degree - 1] columns per
    input column: after a [fit] that returned on an array with [m0]
    columns, a [transform] that returns on an array with [n] rows gives a
    matrix with [n] rows and [m0 * (n_knots + degree - 1)] columns, for the
    instance's own [n_knots] and [degree]. *)
Theorem transform_output_shape h self X0 y e a0 n0 m0 h1 X a n m out h2 :
  transform_n_features_out →
  h !! self = Some (PyEstimator e) →
  h !! X0 = Some (PyArray a0) →
  shape a0 = Some (n0, m0) →
  fit self X0 y h = (Returns self, h1) →
  h1 !! X = Some (PyArray a) →
  shape a = Some (n, m) →
  transform self X h1 = (Returns out, h2) →
  ∃ O, h2 !! out = Some (PyArray O)
       ∧ shape O = Some (n, m0 * Z.to_nat (n_knots e + degree e - 1)).
Proof.
  intros Hout Hself HX0 Hshape0 Hfit HX Hshape Hrun.
  destruct (fit_returns_inv _ _ _ _ _ _ _ HX0 Hfit)
    as (_ & e' & n0' & m0' & s & a0' & Hself' & _ & _ & Hcall0 & ->).
  rewrite Hself in Hself'. injection Hself' as <-.
  destruct (transform_returns_inv _ _ _ _ _ Hrun)
    as (s1 & a1 & B & s' & a' & Hready & Hcall & HO).
  destruct Hready as (e1 & n1 & m1 & Hself1 & Hs1 & HX1 & Hshape1 & _).
  rewrite after_call_lookup_self in Hself1. injection Hself1 as <-.
  simpl in Hs1. injection Hs1 as <-.
  rewrite HX in HX1. injection HX1 as <-.
  exists (cumsum B 0). split; [done|].
  apply shape_cumsum.
  by apply (Hout _ _ _ _ _ _ _ _ _ _ _ _ _ _ Hcall0 Hshape0 Hshape Hcall).
Qed.

(** X3. A [fit] on a valid array replaces whatever an earlier [fit] left:
    its outcome and the instance it leaves are the same as if the earlier
    [fit], returned or raised, had not been called. *)
Theorem refit_replaces_state h self X1 X2 y1 y2 e a1 a2 n m :
  h !! self = Some (PyEstimator e) →
  h !! X1 = Some (PyArray a1) →
  h !! X2 = Some (PyArray a2) →
  shape a2 = Some (n, m) →
  m ≠ 0 →
  (fit self X2 y2 (fit self X1 y1 h).2).1 = (fit self X2 y2 h).1
  ∧ (fit self X2 y2 (fit self X1 y1 h).2).2 !! self
    = (fit self X2 y2 h).2 !! self.
Proof.
  intros Hself HX1 HX2 Hshape Hm.
  destruct (fit_cases h self X1 y1 e a1 Hself HX1)
    as [(msg & -> & _)|(n1 & m1 & r1 & s1 & a1' & _ & _ & _ & ->)]; [done|].
  simpl.
  set (h1 := after_call h self (fresh (dom h)) e s1 a1').
  assert (X2 ≠ self) as Hne by (intros ->; congruence).
  assert (fresh (dom h) ≠ X2) as Hfr by (by apply (fresh_ne h X2 (PyArray a2))).
  assert (h1 !! self = Some (PyEstimator (with_spline_transformer_ e s1)))
    as Hself1 by apply after_call_lookup_self.
  assert (h1 !! X2 = Some (PyArray a2)) as HX21.
  { unfold h1. by rewrite after_call_lookup_other. }
  destruct (spline_fit (SplineTransformer (n_knots e) (degree e) (knots e)) a2)
    as [[r s] a'] eqn:Hcall.
  rewrite (fit_run h self X2 y2 e a2 n m r s a' Hself HX2 Hshape Hm Hcall).
  rewrite (fit_run h1 self X2 y2 (with_spline_transformer_ e s1) a2 n m r s a'
             Hself1 HX21 Hshape Hm Hcall).
  simpl. split; [done|].
  by rewrite !after_call_lookup_self.
Qed.

(** X4. [fit] on an array without rows or without columns raises
    [ValueError] at the validation step and leaves the whole store as it
    was: the instance keeps the attribute it had, or stays without one. *)
Theorem fit_invalid_array_keeps_store h self X y a :
  h !! X = Some (PyArray a) →
  (shape a = None ∨ ∃ n, shape a = Some (n, 0)) →
  ∃ msg, fit self X y h = (Raises (ValueError msg), h).
Proof. apply fit_raises_on_invalid. Qed.

(** X5. On an instance whose attribute is set, [transform] on an array
    without rows or without columns raises [ValueError] at the validation
    step: the collaborator is not called and the store stays as it was,
    whatever the collaborator would do. *)
Theorem transform_invalid_array_keeps_store h self X e a :
  h !! self = Some (PyEstimator e) →
  is_Some (spline_transformer_ e) →
  h !! X = Some (PyArray a) →
  (shape a = None ∨ ∃ n, shape a = Some (n, 0)) →
  ∃ msg, transform self X h = (Raises (ValueError msg), h).
Proof.
  intros Hself Hs HX Hbad.
  destruct (check_array_invalid h X a false false HX Hbad) as [msg Hca].
  exists msg. unfold transform.
  rewrite bind_run, (check_is_fitted_run _ _ _ _ Hself).
  rewrite hasattr_spline_transformer_, bool_decide_eq_true_2 by done.
  by rewrite bind_run, Hca.
Qed.

(** X6. On an instance whose attribute is set and an array with a shape and
    a column, whatever values the array holds (NaN and infinities
    included), the outcome of [transform] is the collaborator's: it returns
    exactly when the collaborator returns, and it raises the collaborator's
    exception unchanged. *)
Theorem transform_outcome_is_collaborators h self X s a :
  transform_ready h self X s a →
  is_returns (transform self X h).1 = is_returns (spline_transform s a).1.1
  ∧ ∀ ex, (spline_transform s a).1.1 = Raises ex →
          (transform self X h).1 = Raises ex.
Proof.
  intros (e & n & m & Hself & Hs & HX & Hshape & Hm).
  destruct (spline_transform s a) as [[r s'] a'] eqn:Hcall.
  destruct r as [B|ex0]; simpl.
  - destruct (transform_returns _ _ _ _ _ _ _ _ _ _ _ Hself Hs HX Hshape Hm Hcall)
      as (out & h' & -> & _).
    split; [done|]. by intros.
  - rewrite (transform_run _ _ _ _ _ _ _ _ _ _ _ Hself Hs HX Hshape Hm Hcall).
    split; [done|]. by intros ex [= <-].
Qed.

(** X7. The result [O] of [transform] is the running sum of the basis
    matrix [B] down the rows: it has as many rows as [B], its first row is
    the first row of [B], and every later entry is the entry above it plus
    the entry of [B]: [O[i+1, c] = O[i, c] + B[i+1, c]]. *)
Theorem transform_is_running_sum h self X s a B s' a' :
  transform_ready h self X s a →
  spline_transform s a = (Returns B, s', a') →
  ∃ out h' O,
    transform self X h = (Returns out, h')
    ∧ h' !! out = Some (PyArray O)
    ∧ length O = length B
    ∧ head O = head B
    ∧ ∀ i c x y,
        item O i c = Some x →
        item B (S i) c = Some y →
        item O (S i) c = Some (fadd x y).
Proof.
  intros Hready Hcall.
  destruct (transform_ready_returns _ _ _ _ _ _ _ _ Hready Hcall)
    as (out & h' & Hrun & Hout).
  exists out, h', (cumsum B 0). split_and!; [done..| | |].
  - apply length_cumsum.
  - apply cumsum_first_row.
  - intros i c x y. apply cumsum_step.
Qed.

(** X8. When the basis matrix has no negative entry, neither has the
    result of [transform]. *)
Theorem transform_output_nonneg (FO : Float64Order F) h self X s a B s' a' :
  transform_ready h self X s a →
  spline_transform s a = (Returns B, s', a') →
  Forall (Forall nonneg) B →
  ∃ out h' O,
    transform self X h = (Returns out, h')
    ∧ h' !! out = Some (PyArray O)
    ∧ Forall (Forall nonneg) O.
Proof.
  intros Hready Hcall HB.
  destruct (transform_ready_returns _ _ _ _ _ _ _ _ Hready Hcall)
    as (out & h' & Hrun & Hout).
  exists out, h', (cumsum B 0). split_and!; [done..|].
  by apply cumsum_nonneg.
Qed.

(** X9. [fit] followed by [transform] on the same array: when the
    collaborator's [fit] returns on the contents [a] of [X] and its
    [transform] then returns [B] on [a], both calls return and the result is
    the running sum of [B]. [transform] sees the contents [X] had before
    [fit], also when the collaborator's [fit] changes the array it is
    given. *)
Theorem fit_then_transform h self X y e a n m s a0' B s' a' :
  h !! self = Some (PyEstimator e) →
  h !! X = Some (PyArray a) →
  shape a = Some (n, m) →
  m ≠ 0 →
  spline_fit (SplineTransformer (n_knots e) (degree e) (knots e)) a
  = (Returns (), s, a0') →
  spline_transform s a = (Returns B, s', a') →
  ∃ h1 out h2,
    fit self X y h = (Returns self, h1)
    ∧ transform self X h1 = (Returns out, h2)
    ∧ h2 !! out = Some (PyArray (cumsum B 0)).
Proof.
  intros Hself HX Hshape Hm Hfit Hcall.
  assert (X ≠ self) as Hne by (intros ->; congruence).
  assert (fresh (dom h) ≠ X) as HlX by (by apply (fresh_ne h X (PyArray a))).
  pose proof (fit_run h self X y e a n m (Returns ()) s a0'
                Hself HX Hshape Hm Hfit) as Hfit_run.
  set (h1 := after_call h self (fresh (dom h)) e s a0') in *.
  assert (transform_ready h1 self X s a) as Hready.
  { exists (with_spline_transformer_ e s), n, m. split_and!; try done.
    - apply after_call_lookup_self.
    - unfold h1. by rewrite after_call_lookup_other. }
  destruct (transform_ready_returns _ _ _ _ _ _ _ _ Hready Hcall)
    as (out & h2 & Hrun & HO).
  by exists h1, out, h2.
Qed.

(** X10. A [fit] that raises inside the collaborator raises the same
    exception, and the instance is left with the attribute
    [spline_transformer_] set, to the collaborator object as the failed
    call left it: [check_is_fitted] passes from then on. *)
Theorem failed_fit_sets_attribute h self X y e a n m ex s' a' :
  h !! self = Some (PyEstimator e) →
  h !! X = Some (PyArray a) →
  shape a = Some (n, m) →
  m ≠ 0 →
  spline_fit (SplineTransformer (n_knots e) (degree e) (knots e)) a
  = (Raises ex, s', a') →
  ∃ h1,
    fit self X y h = (Raises ex, h1)
    ∧ h1 !! self = Some (PyEstimator (with_spline_transformer_ e s'))
    ∧ check_is_fitted self "spline_transformer_" h1 = (Returns (), h1).
Proof.
  intros Hself HX Hshape Hm Hcall.
  exists (after_call h self (fresh (dom h)) e s' a').
  rewrite (fit_run _ _ _ _ _ _ _ _ _ _ _ Hself HX Hshape Hm Hcall).
  split_and!; [done|apply after_call_lookup_self|].
  rewrite (check_is_fitted_run _ _ (with_spline_transformer_ e s'))
    by apply after_call_lookup_self.
  rewrite hasattr_spline_transformer_.
  by rewrite bool_decide_eq_true_2 by (simpl; eauto).
Qed.

End MoreProperties.

Section MoreConcrete.
Import Exact UniformBSpline Demo.

(** X2: fitted on the 100 values, the first 40 give 40 rows and 5
    columns. *)
Lemma transform_output_shape_witness :
  ∃ O, (transform self1 lX40 store1).2 !! 12%positive = Some (PyArray O)
       ∧ shape O
         = Some (40, 1 * Z.to_nat (n_knots estimator0 + degree estimator0 - 1)).
Proof.
  apply (transform_output_shape store0 self1 lX100 None estimator0 X100 100 1
           store1 lX40 X40 40 1 12%positive (transform self1 lX40 store1).2
           uniform_transform_n_features_out); reflexivity.
Defined.

(** X3: a [fit] on one sample, which raises, followed by a [fit] on the 100
    values. *)
Lemma refit_replaces_state_witness :
  (fit self2 lX100 None (fit self2 lX1row None store0).2).1
  = (fit self2 lX100 None store0).1
  ∧ (fit self2 lX100 None (fit self2 lX1row None store0).2).2 !! self2
    = (fit self2 lX100 None store0).2 !! self2.
Proof.
  apply (refit_replaces_state store0 self2 lX1row lX100 None None estimator0
           X1row X100 100 1); [reflexivity..|lia].
Defined.

(** X4: the fitted instance and the array without rows. *)
Lemma fit_invalid_array_keeps_store_witness :
  ∃ msg, fit self1 lXempty None store1 = (Raises (ValueError msg), store1).
Proof.
  apply (fit_invalid_array_keeps_store store1 self1 lXempty None Xempty);
    [reflexivity|by left].
Defined.

(** X5: the fitted instance and the array without rows. *)
Lemma transform_invalid_array_keeps_store_witness :
  ∃ msg, transform self1 lXempty store1 = (Raises (ValueError msg), store1).
Proof.
  apply (transform_invalid_array_keeps_store store1 self1 lXempty estimator1 Xempty);
    [reflexivity|by eexists|reflexivity|by left].
Defined.

(** X6: the fitted instance and an array that holds NaN, which the
    reference collaborator rejects. *)
Lemma transform_outcome_is_collaborators_witness :
  is_returns (transform self1 lXnan store1).1
  = is_returns (spline_transform fitted1 Xnan).1.1
  ∧ ∀ ex, (spline_transform fitted1 Xnan).1.1 = Raises ex →
          (transform self1 lXnan store1).1 = Raises ex.
Proof.
  apply (transform_outcome_is_collaborators store1 self1 lXnan fitted1 Xnan).
  exists estimator1, 3, 1. split_and!; [reflexivity..|lia].
Defined.

(** X7 on the fitted instance and the 100 values. *)
Lemma transform_is_running_sum_witness :
  ∃ out h' O,
    transform self1 lX100 store1 = (Returns out, h')
    ∧ h' !! out = Some (PyArray O)
    ∧ length O = length (basis_of X100)
    ∧ head O = head (basis_of X100)
    ∧ ∀ i c x y,
        item O i c = Some x →
        item (basis_of X100) (S i) c = Some y →
        item O (S i) c = Some (fadd x y).
Proof.
  apply (transform_is_running_sum store1 self1 lX100 fitted1 X100
           (basis_of X100) fitted1 X100).
  - exists estimator1, 100, 1. split_and!; [reflexivity..|lia].
  - reflexivity.
Defined.

(** X8 on the fitted instance and the 100 values. *)
Lemma transform_output_nonneg_witness :
  ∃ out h' O,
    transform self1 lX100 store1 = (Returns out, h')
    ∧ h' !! out = Some (PyArray O)
    ∧ Forall (Forall nonneg) O.
Proof.
  apply (transform_output_nonneg float64_exact_order store1 self1 lX100
           fitted1 X100 (basis_of X100) fitted1 X100).
  - exists estimator1, 100, 1. split_and!; [reflexivity..|lia].
  - reflexivity.
  - apply (uniform_transform_nonneg 3 3 "uniform" X100 fitted1 X100
             X100 (basis_of X100) fitted1 X100); reflexivity.
Defined.

(** X9: the new default instance, fitted on and applied to the first 40
    values. *)
Lemma fit_then_transform_witness :
  ∃ h1 out h2,
    fit self2 lX40 None store0 = (Returns self2, h1)
    ∧ transform self2 lX40 h1 = (Returns out, h2)
    ∧ h2 !! out
      = Some (PyArray (cumsum
           (match do_transform (do_fit (init 3 3 "uniform") X40).2 X40 with
            | Returns B => B
            | Raises _ => []
            end) 0)).
Proof.
  apply (fit_then_transform store0 self2 lX40 None estimator0 X40 40 1
           (do_fit (init 3 3 "uniform") X40).2 X40 _
           (do_fit (init 3 3 "uniform") X40).2 X40); [reflexivity..|lia| |];
    reflexivity.
Defined.

(** X10: the new default instance and the array of one sample. *)
Lemma failed_fit_sets_attribute_witness :
  ∃ h1,
    fit self2 lX1row None store0
    = (Raises (ValueError "minimum of 2 samples is required"), h1)
    ∧ h1 !! self2
      = Some (PyEstimator (with_spline_transformer_ estimator0 (init 3 3 "uniform")))
    ∧ check_is_fitted self2 "spline_transformer_" h1 = (Returns (), h1).
Proof.
  apply (failed_fit_sets_attribute store0 self2 lX1row None estimator0 X1row 1 1
           (ValueError "minimum of 2 samples is required")
           (init 3 3 "uniform") X1row); [reflexivity..|lia|reflexivity].
Defined.

End MoreConcrete.
